(** * The photo-upload store of the dashboard

    A shallow embedding of
    [be/apps/dashboard/src/modules/photos/components/library/photo-upload/store.tsx]:
    the zustand store created by [createPhotoUploadStore], its event reducer
    [handleProcessingEvent], its progress aggregator [handleUploadProgress]
    and the operations it exposes.

    Modelling choices.
    - Byte counts and stage counters are [Z]: they are integers in the
      program and exact as JS numbers below 2^53.  The per-file [progress]
      fraction is a rational ([Qc]); the store only copies it or sets it to
      the constants 0 and 1.
    - The store's state object is a record; a partial state handed to
      zustand's [set] is the list of its [key: value] pairs, merged in order
      as [Object.assign] does.
    - Everything the closures of the store can reach besides the state
      object (the module-level log counter, the abort controller, the two
      external callbacks) is kept in a [World] record that is threaded
      through a small state monad. *)

From Stdlib Require Import ZArith QArith Qcanon Ascii String DecimalString
  DecimalNat Sorting.Sorted.
From stdpp Require Import gmap strings list fin_maps numbers sorting.

Local Open Scope Z_scope.

(** ** Data model ([./types], [../../../types], DOM [File]) *)

(** A DOM [File]: only its name and size are read. *)
Record File := { file_name : string; file_size : Z }.

Module FileStatus.
Inductive t := pending | uploading | processing | done | error.
End FileStatus.

Module WorkflowPhase.
Inductive t := review | uploading | processing | completed | error.
End WorkflowPhase.

Module StageStatus.
Inductive t := running | completed.
End StageStatus.

Record FileProgressEntry := {
  index : nat;
  name : string;
  size : Z;
  status : FileStatus.t;
  progress : Qc;
  uploadedBytes : Z;
}.

Record ProcessingLogEntry := {
  id : string;
  message : string;
  level : string;
  timestamp : Z;
}.

Record LatestLog := {
  latest_message : string;
  latest_level : string;
  latest_timestamp : Z;
}.

Record StageState := {
  stage_status : StageStatus.t;
  processed : Z;
  total : Z;
}.

Record ProcessingState := {
  dryRun : bool;
  summary : string;
  totals : gmap string Z;
  stages : gmap string StageState;
  completed : bool;
  error : option string;
  latestLog : option LatestLog;
}.

(** A JS value found where the server should have put a counter. *)
Inductive JsValue :=
| JsNumber (q : Qc)
| JsNaN
| JsInfinity (negative : bool)
| JsString (s : string)
| JsUndefined.

(** The JS number that is the integer [z]. *)
Definition js_int (z : Z) : JsValue := JsNumber (Q2Qc (inject_Z z)).

(** [PhotoSyncProgressEvent], a union discriminated by [type]. *)
Inductive PhotoSyncProgressEvent :=
| EvStart (ev_summary : string) (ev_totals : gmap string Z)
    (ev_options : option (option bool))
| EvLog (ev_message ev_level ev_timestamp : string)
| EvStage (ev_stage ev_status : string) (ev_processed ev_total : JsValue)
    (ev_summary : string)
| EvAction (ev_stage : string) (ev_index ev_total : JsValue)
    (ev_summary : string)
| EvError (ev_message : string)
| EvComplete (ev_summary : string)
| EvOther (ev_type : string).

(** One file of a [PhotoUploadProgressSnapshot]. *)
Record FileProgress := {
  fp_index : nat;
  fp_progress : Qc;
  fp_uploadedBytes : Z;
}.

Record PhotoUploadProgressSnapshot := { snapshot_files : list FileProgress }.

(** What a rejected promise carries: [name] tells an abort from a failure. *)
Record JsError := { error_name : string; error_message : option string }.

Inductive UploadOutcome :=
| Resolved
| Rejected (e : JsError).

(** The data fields of [PhotoUploadStoreState]. *)
Record PhotoUploadStoreState := {
  files : list File;
  totalSize : Z;
  st_uploadedBytes : Z;
  availableTags : list string;
  selectedTags : list string;
  unmatchedMovFiles : list File;
  hasMovFile : bool;
  phase : WorkflowPhase.t;
  uploadEntries : list FileProgressEntry;
  uploadError : option string;
  processingError : option string;
  processingState : option ProcessingState;
  processingLogs : list ProcessingLogEntry;
}.

(** One [key: value] pair of a partial state. *)
Inductive Field :=
| f_files (v : list File)
| f_totalSize (v : Z)
| f_uploadedBytes (v : Z)
| f_selectedTags (v : list string)
| f_unmatchedMovFiles (v : list File)
| f_hasMovFile (v : bool)
| f_phase (v : WorkflowPhase.t)
| f_uploadEntries (v : list FileProgressEntry)
| f_uploadError (v : option string)
| f_processingError (v : option string)
| f_processingState (v : option ProcessingState)
| f_processingLogs (v : list ProcessingLogEntry).

Definition Partial := list Field.

Definition assign_field (s : PhotoUploadStoreState) (f : Field)
  : PhotoUploadStoreState :=
  match f with
  | f_files v =>
    {| files := v;
       totalSize := totalSize s;
       st_uploadedBytes := st_uploadedBytes s;
       availableTags := availableTags s;
       selectedTags := selectedTags s;
       unmatchedMovFiles := unmatchedMovFiles s;
       hasMovFile := hasMovFile s;
       phase := phase s;
       uploadEntries := uploadEntries s;
       uploadError := uploadError s;
       processingError := processingError s;
       processingState := processingState s;
       processingLogs := processingLogs s |}
  | f_totalSize v =>
    {| files := files s;
       totalSize := v;
       st_uploadedBytes := st_uploadedBytes s;
       availableTags := availableTags s;
       selectedTags := selectedTags s;
       unmatchedMovFiles := unmatchedMovFiles s;
       hasMovFile := hasMovFile s;
       phase := phase s;
       uploadEntries := uploadEntries s;
       uploadError := uploadError s;
       processingError := processingError s;
       processingState := processingState s;
       processingLogs := processingLogs s |}
  | f_uploadedBytes v =>
    {| files := files s;
       totalSize := totalSize s;
       st_uploadedBytes := v;
       availableTags := availableTags s;
       selectedTags := selectedTags s;
       unmatchedMovFiles := unmatchedMovFiles s;
       hasMovFile := hasMovFile s;
       phase := phase s;
       uploadEntries := uploadEntries s;
       uploadError := uploadError s;
       processingError := processingError s;
       processingState := processingState s;
       processingLogs := processingLogs s |}
  | f_selectedTags v =>
    {| files := files s;
       totalSize := totalSize s;
       st_uploadedBytes := st_uploadedBytes s;
       availableTags := availableTags s;
       selectedTags := v;
       unmatchedMovFiles := unmatchedMovFiles s;
       hasMovFile := hasMovFile s;
       phase := phase s;
       uploadEntries := uploadEntries s;
       uploadError := uploadError s;
       processingError := processingError s;
       processingState := processingState s;
       processingLogs := processingLogs s |}
  | f_unmatchedMovFiles v =>
    {| files := files s;
       totalSize := totalSize s;
       st_uploadedBytes := st_uploadedBytes s;
       availableTags := availableTags s;
       selectedTags := selectedTags s;
       unmatchedMovFiles := v;
       hasMovFile := hasMovFile s;
       phase := phase s;
       uploadEntries := uploadEntries s;
       uploadError := uploadError s;
       processingError := processingError s;
       processingState := processingState s;
       processingLogs := processingLogs s |}
  | f_hasMovFile v =>
    {| files := files s;
       totalSize := totalSize s;
       st_uploadedBytes := st_uploadedBytes s;
       availableTags := availableTags s;
       selectedTags := selectedTags s;
       unmatchedMovFiles := unmatchedMovFiles s;
       hasMovFile := v;
       phase := phase s;
       uploadEntries := uploadEntries s;
       uploadError := uploadError s;
       processingError := processingError s;
       processingState := processingState s;
       processingLogs := processingLogs s |}
  | f_phase v =>
    {| files := files s;
       totalSize := totalSize s;
       st_uploadedBytes := st_uploadedBytes s;
       availableTags := availableTags s;
       selectedTags := selectedTags s;
       unmatchedMovFiles := unmatchedMovFiles s;
       hasMovFile := hasMovFile s;
       phase := v;
       uploadEntries := uploadEntries s;
       uploadError := uploadError s;
       processingError := processingError s;
       processingState := processingState s;
       processingLogs := processingLogs s |}
  | f_uploadEntries v =>
    {| files := files s;
       totalSize := totalSize s;
       st_uploadedBytes := st_uploadedBytes s;
       availableTags := availableTags s;
       selectedTags := selectedTags s;
       unmatchedMovFiles := unmatchedMovFiles s;
       hasMovFile := hasMovFile s;
       phase := phase s;
       uploadEntries := v;
       uploadError := uploadError s;
       processingError := processingError s;
       processingState := processingState s;
       processingLogs := processingLogs s |}
  | f_uploadError v =>
    {| files := files s;
       totalSize := totalSize s;
       st_uploadedBytes := st_uploadedBytes s;
       availableTags := availableTags s;
       selectedTags := selectedTags s;
       unmatchedMovFiles := unmatchedMovFiles s;
       hasMovFile := hasMovFile s;
       phase := phase s;
       uploadEntries := uploadEntries s;
       uploadError := v;
       processingError := processingError s;
       processingState := processingState s;
       processingLogs := processingLogs s |}
  | f_processingError v =>
    {| files := files s;
       totalSize := totalSize s;
       st_uploadedBytes := st_uploadedBytes s;
       availableTags := availableTags s;
       selectedTags := selectedTags s;
       unmatchedMovFiles := unmatchedMovFiles s;
       hasMovFile := hasMovFile s;
       phase := phase s;
       uploadEntries := uploadEntries s;
       uploadError := uploadError s;
       processingError := v;
       processingState := processingState s;
       processingLogs := processingLogs s |}
  | f_processingState v =>
    {| files := files s;
       totalSize := totalSize s;
       st_uploadedBytes := st_uploadedBytes s;
       availableTags := availableTags s;
       selectedTags := selectedTags s;
       unmatchedMovFiles := unmatchedMovFiles s;
       hasMovFile := hasMovFile s;
       phase := phase s;
       uploadEntries := uploadEntries s;
       uploadError := uploadError s;
       processingError := processingError s;
       processingState := v;
       processingLogs := processingLogs s |}
  | f_processingLogs v =>
    {| files := files s;
       totalSize := totalSize s;
       st_uploadedBytes := st_uploadedBytes s;
       availableTags := availableTags s;
       selectedTags := selectedTags s;
       unmatchedMovFiles := unmatchedMovFiles s;
       hasMovFile := hasMovFile s;
       phase := phase s;
       uploadEntries := uploadEntries s;
       uploadError := uploadError s;
       processingError := processingError s;
       processingState := processingState s;
       processingLogs := v |}
  end.

(** [Object.assign({}, state, partial)]. *)
Definition assign (s : PhotoUploadStoreState) (p : Partial)
  : PhotoUploadStoreState :=
  fold_left assign_field p s.

#[export] Instance FileStatus_eq_dec : EqDecision FileStatus.t.
Proof. solve_decision. Defined.
#[export] Instance WorkflowPhase_eq_dec : EqDecision WorkflowPhase.t.
Proof. solve_decision. Defined.

(** ** What the store imports and calls but does not define *)

(** The functions imported from [./utils]. *)
Class Utils := {
  calculateTotalSize : list File -> Z;
  calculateUploadedBytes : list FileProgressEntry -> Z;
  collectUnmatchedMovFiles : list File -> list File * bool;
  createFileEntries : list File -> list FileProgressEntry;
  createFileList : list File -> list File;
  createStageStateFromTotals : gmap string Z -> gmap string StageState;
  deriveDirectoryFromTags : list string -> option string;
  getErrorMessage : JsError -> string -> string;
  normalizeStageCount : JsValue -> Z -> Z;
}.

(** [Date.parse]: [None] stands for [NaN]. *)
Class DateApi := { Date_parse : string -> option Z }.

(** The [options] argument of one [onUpload] call; the two callbacks it
    also carries are always [handleUploadProgress] and
    [handleProcessingEvent]. *)
Record UploadRequest := {
  req_files : list File;
  req_signal : nat;
  req_directory : option string;
  req_timeoutMs : Z;
}.

(** ** The world of one store and its monad *)

Record World := {
  store : PhotoUploadStoreState;
  (** module-level [let processingLogSequence] *)
  processingLogSequence : nat;
  (** [let uploadAbortController], a controller being its creation rank *)
  uploadAbortController : option nat;
  controllersCreated : nat;
  (** controllers whose [abort()] has run, latest first *)
  aborted : list nat;
  (** calls of the [onUpload] and [onClose] parameters, latest first *)
  uploadCalls : list UploadRequest;
  closeCalls : nat;
}.

Definition M (A : Type) : Type := World -> A * World.

#[export] Instance M_ret : MRet M := fun A a w => (a, w).
#[export] Instance M_bind : MBind M :=
  fun A B f m w => let '(a, w') := m w in f a w'.

Definition exec {A} (m : M A) (w : World) : World := snd (m w).

Definition with_store (s : PhotoUploadStoreState) (w : World) : World :=
  {| store := s;
     processingLogSequence := processingLogSequence w;
     uploadAbortController := uploadAbortController w;
     controllersCreated := controllersCreated w;
     aborted := aborted w;
     uploadCalls := uploadCalls w;
     closeCalls := closeCalls w |}.

(** zustand's [get()]. *)
Definition get : M PhotoUploadStoreState := fun w => (store w, w).

(** zustand's [set(partial)] with an object. *)
Definition set (partial : Partial) : M unit :=
  fun w => (tt, with_store (assign (store w) partial) w).

(** zustand's [set(fn)]: [fn] is run on the current state, and its result
    is merged into the state as it is once [fn] has returned, so what a
    nested [set] wrote on other keys is kept. *)
Definition set_with (fn : PhotoUploadStoreState -> M Partial) : M unit :=
  fun w => let '(partial, w') := fn (store w) w in
           (tt, with_store (assign (store w') partial) w').

(** [processingLogSequence++] *)
Definition next_processingLogSequence : M nat :=
  fun w => (processingLogSequence w,
            {| store := store w;
               processingLogSequence := S (processingLogSequence w);
               uploadAbortController := uploadAbortController w;
               controllersCreated := controllersCreated w;
               aborted := aborted w;
               uploadCalls := uploadCalls w;
               closeCalls := closeCalls w |}).

(** [new AbortController()] *)
Definition new_AbortController : M nat :=
  fun w => (controllersCreated w,
            {| store := store w;
               processingLogSequence := processingLogSequence w;
               uploadAbortController := uploadAbortController w;
               controllersCreated := S (controllersCreated w);
               aborted := aborted w;
               uploadCalls := uploadCalls w;
               closeCalls := closeCalls w |}).

(** [uploadAbortController = c] *)
Definition set_uploadAbortController (c : option nat) : M unit :=
  fun w => (tt,
            {| store := store w;
               processingLogSequence := processingLogSequence w;
               uploadAbortController := c;
               controllersCreated := controllersCreated w;
               aborted := aborted w;
               uploadCalls := uploadCalls w;
               closeCalls := closeCalls w |}).

(** [uploadAbortController?.abort()] *)
Definition abort_uploadAbortController : M unit :=
  fun w => (tt,
            {| store := store w;
               processingLogSequence := processingLogSequence w;
               uploadAbortController := uploadAbortController w;
               controllersCreated := controllersCreated w;
               aborted := match uploadAbortController w with
                          | Some c => c :: aborted w
                          | None => aborted w
                          end;
               uploadCalls := uploadCalls w;
               closeCalls := closeCalls w |}).

(** The call [onUpload(fileList, options)], up to its first suspension. *)
Definition onUpload (r : UploadRequest) : M unit :=
  fun w => (tt,
            {| store := store w;
               processingLogSequence := processingLogSequence w;
               uploadAbortController := uploadAbortController w;
               controllersCreated := controllersCreated w;
               aborted := aborted w;
               uploadCalls := r :: uploadCalls w;
               closeCalls := closeCalls w |}).

(** The call [onClose()]. *)
Definition onClose : M unit :=
  fun w => (tt,
            {| store := store w;
               processingLogSequence := processingLogSequence w;
               uploadAbortController := uploadAbortController w;
               controllersCreated := controllersCreated w;
               aborted := aborted w;
               uploadCalls := uploadCalls w;
               closeCalls := S (closeCalls w) |}).

(** ** Small JS library functions *)

(** [array.slice(-n)]: the last [n] elements, all of them when there are
    fewer. *)
Definition slice_last {A} (n : nat) (l : list A) : list A :=
  drop (length l - n) l.

(** [array.filter((_, index) => keep(index))] *)
Fixpoint filter_index {A} (keep : nat -> bool) (i : nat) (l : list A) : list A :=
  match l with
  | [] => []
  | x :: l' =>
      if keep i then x :: filter_index keep (S i) l'
      else filter_index keep (S i) l'
  end.

(** The template literal [`log-${n}`]. *)
Definition log_id (n : nat) : string :=
  "log-" +:+ NilZero.string_of_uint (Nat.to_uint n).

(** [new Map(pairs)]: of several pairs with one key the last one wins. *)
Definition new_Map {V} (pairs : list (nat * V)) : gmap nat V :=
  list_to_map (reverse pairs).

(** ** The store: [createPhotoUploadStore] *)

Definition MAX_PROCESSING_LOGS : nat := 200.
Definition UPLOAD_REQUEST_TIMEOUT_MS : Z := 120000.

Section Store.
Context {utils : Utils} {dateApi : DateApi}.

Definition computeUploadedBytes (entries : list FileProgressEntry) : Z :=
  calculateUploadedBytes entries.

Definition updateEntries
    (updater : list FileProgressEntry -> list FileProgressEntry) : M unit :=
  set_with (fun state =>
    let nextEntries := updater (uploadEntries state) in
    mret [f_uploadEntries nextEntries;
          f_uploadedBytes (computeUploadedBytes nextEntries)]).

(** [{ ...entry, status }] *)
Definition entry_with_status (st : FileStatus.t) (entry : FileProgressEntry)
  : FileProgressEntry :=
  {| index := index entry; name := name entry; size := size entry;
     status := st;
     progress := progress entry; uploadedBytes := uploadedBytes entry |}.

(** The [stage] and [action] cases build the same stage record. *)
Definition stage_update (prev : ProcessingState) (stage : string)
    (server_complete : bool) (reported_processed reported_total : JsValue)
    (summary_ : string) : ProcessingState :=
  let prevStage := stages prev !! stage in
  let normalizedTotal :=
    normalizeStageCount reported_total (default 0 (total <$> prevStage)) in
  let normalizedProcessed :=
    normalizeStageCount reported_processed
      (default 0 (processed <$> prevStage)) in
  {| dryRun := dryRun prev;
     summary := summary_;
     totals := totals prev;
     stages :=
       <[stage :=
           {| stage_status :=
                if server_complete || (normalizedTotal =? 0)
                then StageStatus.completed else StageStatus.running;
              processed := Z.min normalizedProcessed normalizedTotal;
              total := normalizedTotal |}]> (stages prev);
     completed := completed prev;
     error := error prev;
     latestLog := latestLog prev |}.

(** [now] is what [Date.now()] returns while the event is handled. *)
Definition handleProcessingEvent (now : Z) (event : PhotoSyncProgressEvent)
  : M unit :=
  match event with
  | EvStart summary_ totals_ eventOptions =>
      updateEntries (map (fun entry =>
        entry_with_status
          (if decide (status entry = FileStatus.uploading)
           then FileStatus.processing else status entry) entry));;
      set [f_phase WorkflowPhase.processing;
           f_processingError None;
           f_processingState (Some
             {| dryRun := default false (mjoin eventOptions);
                summary := summary_;
                totals := totals_;
                stages := createStageStateFromTotals totals_;
                completed := false;
                error := None;
                latestLog := None |});
           f_processingLogs []]
  | _ =>
      set_with (fun state =>
        match event with
        | EvLog message_ level_ timestamp_ =>
            let parsed := Date_parse timestamp_ in
            seq ← next_processingLogSequence;
            let logEntry :=
              {| id := log_id seq;
                 message := message_;
                 level := level_;
                 timestamp := default now parsed |} in
            mret [f_processingState
                    (match processingState state with
                     | Some ps =>
                         Some {| dryRun := dryRun ps;
                                 summary := summary ps;
                                 totals := totals ps;
                                 stages := stages ps;
                                 completed := completed ps;
                                 error := error ps;
                                 latestLog := Some
                                   {| latest_message := message logEntry;
                                      latest_level := level logEntry;
                                      latest_timestamp := timestamp logEntry |}
                              |}
                     | None => processingState state
                     end);
                  f_processingLogs
                    (slice_last MAX_PROCESSING_LOGS
                       (processingLogs state ++ [logEntry]))]
        | _ =>
            match processingState state with
            | None =>
                match event with
                | EvError message_ =>
                    mret [f_phase WorkflowPhase.error;
                          f_processingError (Some message_)]
                | _ => mret []
                end
            | Some prev =>
                match event with
                | EvStage stage status_ processed_ total_ summary_ =>
                    mret [f_processingState (Some
                      (stage_update prev stage
                         (String.eqb status_ "complete")
                         processed_ total_ summary_))]
                | EvAction stage index_ total_ summary_ =>
                    mret [f_processingState (Some
                      (stage_update prev stage false
                         index_ total_ summary_))]
                | EvError message_ =>
                    updateEntries (map (fun entry =>
                      entry_with_status
                        (if decide (status entry = FileStatus.processing)
                         then FileStatus.error else status entry) entry));;
                    mret [f_phase WorkflowPhase.error;
                          f_processingError (Some message_);
                          f_processingState (Some
                            {| dryRun := dryRun prev;
                               summary := summary prev;
                               totals := totals prev;
                               stages := stages prev;
                               completed := completed prev;
                               error := Some message_;
                               latestLog := latestLog prev |})]
                | EvComplete summary_ =>
                    updateEntries (map (fun entry =>
                      {| index := index entry;
                         name := name entry;
                         size := size entry;
                         status :=
                           if decide (status entry = FileStatus.processing)
                           then FileStatus.done else status entry;
                         progress := 1%Qc;
                         uploadedBytes := size entry |}));;
                    mret [f_phase WorkflowPhase.completed;
                          f_processingState (Some
                            {| dryRun := dryRun prev;
                               summary := summary_;
                               totals := totals prev;
                               stages := stages prev;
                               completed := true;
                               error := error prev;
                               latestLog := latestLog prev |})]
                | _ => mret []
                end
            end
        end)
  end.

Definition handleUploadProgress (snapshot : PhotoUploadProgressSnapshot)
  : M unit :=
  let progressMap :=
    new_Map (map (fun file => (fp_index file, file))
               (snapshot_files snapshot)) in
  updateEntries (map (fun entry =>
    match progressMap !! index entry with
    | None => entry
    | Some current =>
        {| index := index entry;
           name := name entry;
           size := size entry;
           status :=
             if decide (status entry = FileStatus.pending)
             then FileStatus.uploading else status entry;
           progress := fp_progress current;
           uploadedBytes := fp_uploadedBytes current |}
    end)).

(** *** The operations held in the state object *)

Definition removeEntry (entry : FileProgressEntry) : M unit :=
  set_with (fun state =>
    if negb (bool_decide (phase state = WorkflowPhase.review)) then mret []
    else
      let nextFiles :=
        filter_index (fun index_ => negb (index_ =? index entry)%nat) 0
          (files state) in
      if (length nextFiles =? length (files state))%nat then mret []
      else
        let nextEntries := createFileEntries nextFiles in
        let nextTotalSize := calculateTotalSize nextFiles in
        let '(unmatched, hasMov) := collectUnmatchedMovFiles nextFiles in
        mret [f_files nextFiles;
              f_totalSize nextTotalSize;
              f_unmatchedMovFiles unmatched;
              f_hasMovFile hasMov;
              f_uploadEntries nextEntries;
              f_uploadedBytes (computeUploadedBytes nextEntries)]).

(** [beginUpload] up to its [await]: the guards, the switch to
    [uploading] and the call of the transport. *)
Definition beginUpload : M unit :=
  state ← get;
  if (0 <? length (unmatchedMovFiles state))%nat
     || bool_decide (phase state = WorkflowPhase.uploading)
     || bool_decide (phase state = WorkflowPhase.processing)
  then mret tt
  else if (length (files state) =? 0)%nat then mret tt
  else
    set [f_uploadError None;
         f_processingError None;
         f_processingState None;
         f_phase WorkflowPhase.uploading;
         f_processingLogs []];;
    updateEntries (map (entry_with_status FileStatus.uploading));;
    controller ← new_AbortController;
    set_uploadAbortController (Some controller);;
    state1 ← get;
    let directory := deriveDirectoryFromTags (selectedTags state1) in
    state2 ← get;
    let fileList := createFileList (files state2) in
    onUpload {| req_files := fileList;
                req_signal := controller;
                req_directory := directory;
                req_timeoutMs := UPLOAD_REQUEST_TIMEOUT_MS |}.

(** [beginUpload] from its [await] on, once the promise of the transport
    has settled: the [catch] and [finally] blocks. *)
Definition beginUpload_settled (outcome : UploadOutcome) : M unit :=
  match outcome with
  | Resolved => mret tt
  | Rejected error_ =>
      let isAbort := String.eqb (error_name error_) "AbortError" in
      if isAbort then
        set [f_phase WorkflowPhase.review];;
        state ← get;
        let currentFiles := files state in
        updateEntries (fun _ => createFileEntries currentFiles)
      else
        let message_ := getErrorMessage error_ "上传失败，请稍后再试。" in
        set [f_uploadError (Some message_);
             f_phase WorkflowPhase.error];;
        updateEntries (map (fun entry =>
          entry_with_status
            (if decide (status entry = FileStatus.uploading)
             then FileStatus.error else status entry) entry))
  end;;
  set_uploadAbortController None.

Definition abortCurrent : M unit :=
  state ← get;
  let phase_ := phase state in
  if bool_decide (phase_ = WorkflowPhase.uploading) then
    abort_uploadAbortController;;
    set_uploadAbortController None;;
    set [f_phase WorkflowPhase.review];;
    state' ← get;
    let currentFiles := files state' in
    updateEntries (fun _ => createFileEntries currentFiles)
  else if bool_decide (phase_ = WorkflowPhase.processing) then
    abort_uploadAbortController;;
    set_uploadAbortController None;;
    set [f_processingError (Some "服务器处理已终止");
         f_phase WorkflowPhase.error];;
    updateEntries (map (fun entry =>
      entry_with_status
        (if decide (status entry = FileStatus.processing)
         then FileStatus.error else status entry) entry))
  else mret tt.

Definition reset : M unit :=
  abort_uploadAbortController;;
  set_uploadAbortController None;;
  set [f_phase WorkflowPhase.review;
       f_uploadError None;
       f_processingError None;
       f_processingState None;
       f_processingLogs []];;
  state ← get;
  let currentFiles := files state in
  updateEntries (fun _ => createFileEntries currentFiles).

Definition cleanup : M unit :=
  abort_uploadAbortController;;
  set_uploadAbortController None.

Definition closeModal : M unit :=
  cleanup;;
  onClose.

Definition setSelectedTags (tags : list string) : M unit :=
  set [f_selectedTags tags].

(** The state a new store starts in.  [sequence] is the value the
    module-level log counter has when the store is created. *)
Definition createPhotoUploadStore (initialFiles : list File)
    (availableTags_ : list string) (sequence : nat) : World :=
  let initialEntries := createFileEntries initialFiles in
  let totalSize_ := calculateTotalSize initialFiles in
  let '(unmatchedMovFiles_, hasMov) := collectUnmatchedMovFiles initialFiles in
  {| store :=
       {| files := initialFiles;
          totalSize := totalSize_;
          st_uploadedBytes := 0;
          availableTags := availableTags_;
          selectedTags := [];
          unmatchedMovFiles := unmatchedMovFiles_;
          hasMovFile := hasMov;
          phase := WorkflowPhase.review;
          uploadEntries := initialEntries;
          uploadError := None;
          processingError := None;
          processingState := None;
          processingLogs := [] |};
     processingLogSequence := sequence;
     uploadAbortController := None;
     controllersCreated := 0;
     aborted := [];
     uploadCalls := [];
     closeCalls := 0 |}.

(** *** Everything that can happen to a store *)

Inductive Action :=
| DoRemoveEntry (entry : FileProgressEntry)
| DoBeginUpload
| DoAbortCurrent
| DoReset
| DoCloseModal
| DoSetSelectedTags (tags : list string)
| DoCleanup
| OnUploadProgress (snapshot : PhotoUploadProgressSnapshot)
| OnServerEvent (now : Z) (event : PhotoSyncProgressEvent)
| OnUploadSettled (outcome : UploadOutcome).

Definition perform (a : Action) : M unit :=
  match a with
  | DoRemoveEntry entry => removeEntry entry
  | DoBeginUpload => beginUpload
  | DoAbortCurrent => abortCurrent
  | DoReset => reset
  | DoCloseModal => closeModal
  | DoSetSelectedTags tags => setSelectedTags tags
  | DoCleanup => cleanup
  | OnUploadProgress snapshot => handleUploadProgress snapshot
  | OnServerEvent now event => handleProcessingEvent now event
  | OnUploadSettled outcome => beginUpload_settled outcome
  end.

Definition run (actions : list Action) (w : World) : World :=
  fold_left (fun w a => exec (perform a) w) actions w.
End Store.

(** ** The helpers of [./utils], as the specification describes them

    [utils.ts] is not among the sources verified here.  The store is verified
    for every implementation of the [Utils] interface wherever a property
    does not depend on what the helpers compute; the definitions below are
    used where it does, and to run the store on concrete inputs. *)

Module SpecUtils.

(** What the specification leaves open about file names: which names
    carry the reserved companion-video extension, which are images, and
    what the base name of a file is. *)
Record NamingConvention := {
  isCompanionVideo : string -> bool;
  isImage : string -> bool;
  baseName : string -> string;
}.

(** Modelled from the spec: [calculateTotalSize] of [utils.ts] is missing;
    section 4.1, "sum of file sizes". *)
Definition calculateTotalSize (files : list File) : Z :=
  foldr (fun f acc => file_size f + acc) 0 files.

(** Modelled from the spec: [calculateUploadedBytes] of [utils.ts] is
    missing; section 4.3, "the sum over all entries". *)
Definition calculateUploadedBytes (entries : list FileProgressEntry) : Z :=
  foldr (fun e acc => uploadedBytes e + acc) 0 entries.

(** Modelled from the spec: [createFileEntries] of [utils.ts] is missing;
    section 4.1, "one UploadEntry per file in input order, all status =
    pending, progress = 0", [index] being the position in the list and
    [uploadedBytes] being [progress * size]. *)
Definition createFileEntries (files : list File) : list FileProgressEntry :=
  imap (fun i f =>
    {| index := i;
       name := file_name f;
       size := file_size f;
       status := FileStatus.pending;
       progress := 0%Qc;
       uploadedBytes := 0 |}) files.

(** Modelled from the spec: [collectUnmatchedMovFiles] of [utils.ts] is
    missing; section 4.1, the files with the reserved video extension
    that have no image of the same base name in the same set, and a
    boolean "any mismatch exists". *)
Definition collectUnmatchedMovFiles (conv : NamingConvention)
    (files : list File) : list File * bool :=
  let matched (f : File) :=
    existsb (fun g =>
      isImage conv (file_name g)
      && String.eqb (baseName conv (file_name g))
                    (baseName conv (file_name f))) files in
  let unmatched :=
    List.filter (fun f =>
      isCompanionVideo conv (file_name f) && negb (matched f)) files in
  (unmatched, negb (length unmatched =? 0)%nat).

(** Modelled from the spec: [createFileList] of [utils.ts] is missing; it
    wraps the files in a DOM [FileList], the same sequence. *)
Definition createFileList (files : list File) : list File := files.

(** Modelled from the spec: [createStageStateFromTotals] of [utils.ts] is
    missing; section 4.4, "initialize processingState from payload
    totals", with the invariant of section 3 that a total of 0 forces
    [completed]. *)
Definition createStageStateFromTotals (totals : gmap string Z)
  : gmap string StageState :=
  (fun t =>
     {| stage_status :=
          if t =? 0 then StageStatus.completed else StageStatus.running;
        processed := 0;
        total := t |}) <$> totals.

Definition blank (tag : string) : bool :=
  forallb (fun c => Ascii.eqb c " "%char) (list_ascii_of_string tag).

(** Modelled from the spec: [deriveDirectoryFromTags] of [utils.ts] is
    missing; section 4.1, a deterministic mapping to an optional path
    where empty or whitespace-only tag sets yield no directory. *)
Definition deriveDirectoryFromTags (tags : list string) : option string :=
  match List.filter (fun tag => negb (blank tag)) tags with
  | [] => None
  | tag :: rest => Some (foldl (fun path t => path +:+ "/" +:+ t) tag rest)
  end.

(** Modelled from the spec: [getErrorMessage] of [utils.ts] is missing;
    section 4.5, the text of the failure, "falling back to a generic
    message when the failure carries no usable text". *)
Definition getErrorMessage (e : JsError) (fallback : string) : string :=
  match error_message e with
  | Some m => if blank m then fallback else m
  | None => fallback
  end.

(** Modelled from the spec: [normalizeStageCount] of [utils.ts] is
    missing; section 4.2, "the larger of (a) the reported value if it is
    a non-negative finite integer, or (b) the previous value otherwise". *)
Definition normalizeStageCount (reported : JsValue) (previous : Z) : Z :=
  match reported with
  | JsNumber q =>
      if (Qden q =? 1)%positive && (0 <=? Qnum q)
      then Z.max (Qnum q) previous
      else previous
  | _ => previous
  end.

Definition utils (conv : NamingConvention) : Utils :=
  Build_Utils calculateTotalSize calculateUploadedBytes
    (collectUnmatchedMovFiles conv) createFileEntries createFileList
    createStageStateFromTotals deriveDirectoryFromTags getErrorMessage
    normalizeStageCount.

End SpecUtils.

(** ** Concrete instances to run the store on *)

Module Sample.

Definition ends_with (suffix s : string) : bool :=
  let n := String.length s in
  let k := String.length suffix in
  (k <=? n)%nat && String.eqb (substring (n - k) k s) suffix.

Fixpoint has_dot (s : string) : bool :=
  match s with
  | EmptyString => false
  | String c rest => Ascii.eqb c "."%char || has_dot rest
  end.

(** The name up to its last dot. *)
Fixpoint stem (s : string) : string :=
  match s with
  | EmptyString => EmptyString
  | String c rest =>
      if has_dot rest then String c (stem rest)
      else if Ascii.eqb c "."%char then EmptyString
      else String c (stem rest)
  end.

Definition mov (file_name : string) : bool :=
  ends_with ".mov" file_name || ends_with ".MOV" file_name.

Definition conv : SpecUtils.NamingConvention :=
  {| SpecUtils.isCompanionVideo := mov;
     SpecUtils.isImage := fun n => negb (mov n);
     SpecUtils.baseName := stem |}.

Definition utils : Utils := SpecUtils.utils conv.

(** A [Date.parse] that knows the two instants used below. *)
Definition dateApi : DateApi :=
  {| Date_parse := fun s =>
       if String.eqb s "1970-01-01T00:00:00.000Z" then Some 0
       else if String.eqb s "1970-01-01T00:00:01.000Z" then Some 1000
       else None |}.

Definition three_files : list File :=
  [ {| file_name := "a.jpg"; file_size := 10 |};
    {| file_name := "b.jpg"; file_size := 20 |};
    {| file_name := "c.jpg"; file_size := 30 |} ].

Definition fresh : World :=
  @createPhotoUploadStore utils three_files [] 0.

(** The scenario of section 8 of the specification. *)
Definition scenario : list Action :=
  [ DoBeginUpload;
    OnUploadProgress
      {| snapshot_files :=
           [ {| fp_index := 0; fp_progress := 1%Qc; fp_uploadedBytes := 10 |} ] |};
    OnServerEvent 5 (EvStart "sync" {[ "metadata" := 3 ]} None);
    OnServerEvent 6
      (EvStage "metadata" "progress" (js_int 2) (js_int 3) "sync");
    OnServerEvent 7
      (EvStage "metadata" "progress" (JsString "bad") (js_int 3) "sync") ].

End Sample.


(** ** Notions used in the statements *)

Module FileStatusOrder.
(** The order [pending -> uploading -> processing -> {done, error}]. *)
Definition rank (s : FileStatus.t) : nat :=
  match s with
  | FileStatus.pending => 0
  | FileStatus.uploading => 1
  | FileStatus.processing => 2
  | FileStatus.done => 3
  | FileStatus.error => 3
  end.
End FileStatusOrder.

(** One [log] event as it arrives: the clock reading and the payload. *)
Record LogArrival := {
  arrival_now : Z;
  arrival_message : string;
  arrival_level : string;
  arrival_timestamp : string;
}.

Definition log_action (a : LogArrival) : Action :=
  OnServerEvent (arrival_now a)
    (EvLog (arrival_message a) (arrival_level a) (arrival_timestamp a)).

Section Notions.
Context {utils : Utils} {dateApi : DateApi}.

(** The entry the reducer makes of an arrival when the counter is [seq]. *)
Definition log_entry (seq : nat) (a : LogArrival) : ProcessingLogEntry :=
  {| id := log_id seq;
     message := arrival_message a;
     level := arrival_level a;
     timestamp := default (arrival_now a) (Date_parse (arrival_timestamp a)) |}.

Fixpoint log_entries (seq : nat) (arrivals : list LogArrival)
  : list ProcessingLogEntry :=
  match arrivals with
  | [] => []
  | a :: rest => log_entry seq a :: log_entries (S seq) rest
  end.

(** The aggregate is what [calculateUploadedBytes] makes of the entries. *)
Definition recomputed (w : World) : Prop :=
  st_uploadedBytes (store w)
  = calculateUploadedBytes (uploadEntries (store w)).
End Notions.

(** In [w] the stage [stage] is recorded with total [normalizedTotal], with
    [processed <= total], and as [completed] if that total is 0. *)
Definition stage_is_normalized (w : World) (stage : string)
    (normalizedTotal : Z) : Prop :=
  exists (ps : ProcessingState) (st : StageState),
    processingState (store w) = Some ps /\
    stages ps !! stage = Some st /\
    total st = normalizedTotal /\
    processed st <= total st /\
    (normalizedTotal = 0 -> stage_status st = StageStatus.completed).

(** ** States of the sample store *)

(** The store while its upload is under way. *)
Definition uploading_now : World :=
  @run Sample.utils Sample.dateApi [DoBeginUpload] Sample.fresh.

(** The state of the scenario after [start], with 3 items announced for
    the stage [metadata]. *)
Definition started_metadata_3 : World :=
  @run Sample.utils Sample.dateApi
    [ DoBeginUpload;
      OnServerEvent 5 (EvStart "sync" {[ "metadata" := 3 ]} None) ]
    Sample.fresh.

(** A state in which every file is [done]: upload, [start], [complete]. *)
Definition all_done : World :=
  @run Sample.utils Sample.dateApi
    [ DoBeginUpload;
      OnServerEvent 5 (EvStart "sync" {[ "metadata" := 3 ]} None);
      OnServerEvent 9 (EvComplete "synced") ]
    Sample.fresh.

Definition late_snapshot : PhotoUploadProgressSnapshot :=
  {| snapshot_files :=
       [ {| fp_index := 0; fp_progress := 0%Qc; fp_uploadedBytes := 4 |} ] |}.

(** A state in phase [processing] whose entries are all [done]: a second
    [start] event after the [complete] event. *)
Definition restarted : World :=
  exec (@handleProcessingEvent Sample.utils Sample.dateApi 12
          (EvStart "sync" {[ "metadata" := 3 ]} None)) all_done.

(** A state in phase [error]: the transport failed during the upload. *)
Definition upload_failed : World :=
  @run Sample.utils Sample.dateApi
    [ DoBeginUpload;
      OnUploadSettled
        (Rejected {| error_name := "TypeError";
                     error_message := Some "Failed to fetch" |}) ]
    Sample.fresh.

(** A state in which the server has reported a failure: every entry is in
    status [error] and [processingState] is present. *)
Definition processing_failed : World :=
  exec (@handleProcessingEvent Sample.utils Sample.dateApi 8
          (EvError "disk full")) started_metadata_3.

(** A selection with a companion video that has no image of its name. *)
Definition lonely_video : list File :=
  [ {| file_name := "a.jpg"; file_size := 10 |};
    {| file_name := "b.mov"; file_size := 50 |} ].

(** ** Notions used in the further properties *)

(** An entry moved from status [from] to status [to]; an entry in any other
    status is returned as it is. *)
Definition retag (from to : FileStatus.t) (entry : FileProgressEntry)
  : FileProgressEntry :=
  if decide (status entry = from) then entry_with_status to entry else entry.

(** The [latestLog] snapshot that mirrors a log entry. *)
Definition latest_of (entry : ProcessingLogEntry) : LatestLog :=
  {| latest_message := message entry;
     latest_level := level entry;
     latest_timestamp := timestamp entry |}.

(** What ties an entry to its file. *)
Definition entry_file (entry : FileProgressEntry) : nat * string * Z :=
  (index entry, name entry, size entry).

(** What the phase tells about [processingState]. *)
Definition phase_agrees (s : PhotoUploadStoreState) : Prop :=
  match phase s with
  | WorkflowPhase.uploading => processingState s = None
  | WorkflowPhase.processing => processingState s <> None
  | WorkflowPhase.completed =>
      exists ps, processingState s = Some ps /\ completed ps = true
  | _ => True
  end.

(** [latestLog] is the snapshot of the newest entry of the log. *)
Definition latest_log_mirrors (s : PhotoUploadStoreState) : Prop :=
  forall ps, processingState s = Some ps ->
             latestLog ps = latest_of <$> list.last (processingLogs s).

(** The totals, the companion partition and the identity of the entries are
    those derived from the current files. *)
Definition derived_from_files {utils : Utils} (s : PhotoUploadStoreState)
  : Prop :=
  totalSize s = calculateTotalSize (files s) /\
  (unmatchedMovFiles s, hasMovFile s) = collectUnmatchedMovFiles (files s) /\
  map entry_file (uploadEntries s)
  = map entry_file (createFileEntries (files s)).

(** The ids of the log are [log-n] for strictly increasing numbers [n], all
    below the module-level counter. *)
Definition log_ids_ascend (w : World) : Prop :=
  exists ns : list nat,
    map id (processingLogs (store w)) = map log_id ns /\
    StronglySorted lt ns /\
    Forall (fun n => (n < processingLogSequence w)%nat) ns.

(** What the transport feeds into the store while an upload is under way:
    progress snapshots and server events. *)
Definition is_feed (a : Action) : bool :=
  match a with
  | OnUploadProgress _ | OnServerEvent _ _ => true
  | _ => false
  end.

(** The actions that do not edit the selection (the files and the tags). *)
Definition keeps_selection (a : Action) : bool :=
  match a with
  | DoRemoveEntry _ | DoSetSelectedTags _ => false
  | _ => true
  end.

(** The rejection with which an aborted transport settles. *)
Definition abort_error : JsError :=
  {| error_name := "AbortError";
     error_message := Some "The operation was aborted." |}.

(** The selection: the files, the tags and what is derived from the files
    alone. *)
Definition selection (s : PhotoUploadStoreState)
  : list File * list string * list string * Z * list File * bool :=
  (files s, availableTags s, selectedTags s, totalSize s,
   unmatchedMovFiles s, hasMovFile s).

(** What the store owns besides its state object and the log counter. *)
Definition outside (w : World)
  : option nat * nat * list nat * list UploadRequest * nat :=
  (uploadAbortController w, controllersCreated w, aborted w, uploadCalls w,
   closeCalls w).

(** * Properties *)

(** ** The model at work *)

(** The scenario of section 8 of the specification, step by step. *)
Example scenario_after_the_snapshot :
  st_uploadedBytes
    (store (@run Sample.utils Sample.dateApi (take 2 Sample.scenario)
              Sample.fresh)) = 10.
Proof. reflexivity. Qed.

Example scenario_after_start :
  let s := store (@run Sample.utils Sample.dateApi (take 3 Sample.scenario)
                    Sample.fresh) in
  phase s = WorkflowPhase.processing /\
  map status (uploadEntries s)
  = [FileStatus.processing; FileStatus.processing; FileStatus.processing].
Proof. split; reflexivity. Qed.

Example scenario_after_the_bad_counter :
  (processingState
     (store (@run Sample.utils Sample.dateApi Sample.scenario Sample.fresh))
   ≫= fun ps => stages ps !! "metadata")
  = Some {| stage_status := StageStatus.running; processed := 2; total := 3 |}.
Proof. vm_compute. reflexivity. Qed.

Example scenario_after_complete :
  let s := store (@run Sample.utils Sample.dateApi
                    (Sample.scenario ++ [OnServerEvent 9 (EvComplete "ok")])
                    Sample.fresh) in
  phase s = WorkflowPhase.completed /\
  map status (uploadEntries s)
  = [FileStatus.done; FileStatus.done; FileStatus.done] /\
  st_uploadedBytes s = 60.
Proof. repeat split; vm_compute; reflexivity. Qed.

(** [slice(-n)] keeps the tail; a [Map] keeps the last value of a key. *)
Example slice_last_keeps_the_tail :
  slice_last 2 [1; 2; 3] = [2; 3] /\ slice_last 5 [1; 2; 3] = [1; 2; 3].
Proof. split; reflexivity. Qed.

Example new_Map_keeps_the_last_pair :
  new_Map [(0%nat, "first"); (1%nat, "other"); (0%nat, "last")] !! 0%nat
  = Some "last".
Proof. vm_compute. reflexivity. Qed.

(** [removeEntry] drops the file at the entry's index and renumbers. *)
Example removeEntry_renumbers :
  map (fun entry => (index entry, name entry))
    (uploadEntries
       (store (exec (@removeEntry Sample.utils
                       {| index := 1; name := "b.jpg"; size := 20;
                          status := FileStatus.pending; progress := 0%Qc;
                          uploadedBytes := 0 |}) Sample.fresh)))
  = [(0%nat, "a.jpg"); (1%nat, "c.jpg")].
Proof. reflexivity. Qed.

(** ** Tactics and general facts *)

(** Unfold the monad so that a run of the store computes. *)
Ltac unfold_store :=
  unfold exec, beginUpload, beginUpload_settled, abortCurrent, reset,
    closeModal, cleanup, setSelectedTags, removeEntry, handleUploadProgress,
    handleProcessingEvent, updateEntries, computeUploadedBytes, set_with, set,
    get, onUpload, onClose, next_processingLogSequence, new_AbortController,
    set_uploadAbortController, abort_uploadAbortController, with_store,
    mbind, M_bind, mret, M_ret in *.

(** Settle the phase tests whose outcome is known. *)
Ltac decide_phases :=
  repeat first
    [ rewrite bool_decide_eq_true_2 by (reflexivity || assumption)
    | rewrite bool_decide_eq_false_2 by (discriminate || congruence) ].

Section SliceLast.
Context {A : Type}.
Implicit Types (l k : list A) (n : nat).

Lemma length_slice_last n l :
  length (slice_last n l) = Nat.min n (length l).
Proof. unfold slice_last. rewrite length_drop. lia. Qed.

Lemma slice_last_short n l : (length l <= n)%nat -> slice_last n l = l.
Proof.
  intros Hle. unfold slice_last.
  replace (length l - n)%nat with 0%nat by lia. reflexivity.
Qed.

(** Trimming before appending changes nothing once the result is trimmed. *)
Lemma slice_last_app_trimmed n l k :
  slice_last n (slice_last n l ++ k) = slice_last n (l ++ k).
Proof.
  destruct (decide (length l <= n)%nat) as [Hle | Hgt].
  { rewrite (slice_last_short n l Hle). reflexivity. }
  unfold slice_last at 1 3.
  rewrite !length_app, length_slice_last.
  unfold slice_last.
  destruct (decide (length k <= n)%nat) as [Hk | Hk].
  - rewrite !drop_app_le by (rewrite ?length_drop; lia).
    rewrite drop_drop. f_equal. f_equal. lia.
  - rewrite !drop_app_ge by (rewrite ?length_drop; lia).
    rewrite length_drop. f_equal. lia.
Qed.

Lemma slice_last_suffix n l : exists evicted, l = evicted ++ slice_last n l.
Proof.
  exists (take (length l - n) l). unfold slice_last.
  symmetry. apply take_drop.
Qed.
End SliceLast.

Section Logs.
Context {utils : Utils} {dateApi : DateApi}.

Lemma length_log_entries seq arrivals :
  length (log_entries seq arrivals) = length arrivals.
Proof.
  revert seq. induction arrivals as [| a rest IH]; intros seq; simpl; auto.
Qed.

(** What a [log] event does to the world, whatever the state. *)
Lemma handle_log w now m l ts :
  exec (handleProcessingEvent now (EvLog m l ts)) w
  = let entry :=
      {| id := log_id (processingLogSequence w);
         message := m; level := l;
         timestamp := default now (Date_parse ts) |} in
    {| store :=
         assign (store w)
           [f_processingState
              (match processingState (store w) with
               | Some ps =>
                   Some {| dryRun := dryRun ps; summary := summary ps;
                           totals := totals ps; stages := stages ps;
                           completed := completed ps; error := error ps;
                           latestLog := Some
                             {| latest_message := m; latest_level := l;
                                latest_timestamp :=
                                  default now (Date_parse ts) |} |}
               | None => None
               end);
            f_processingLogs
              (slice_last MAX_PROCESSING_LOGS
                 (processingLogs (store w) ++ [entry]))];
       processingLogSequence := S (processingLogSequence w);
       uploadAbortController := uploadAbortController w;
       controllersCreated := controllersCreated w;
       aborted := aborted w;
       uploadCalls := uploadCalls w;
       closeCalls := closeCalls w |}.
Proof.
  unfold_store. cbn. destruct (processingState (store w)); reflexivity.
Qed.

Lemma run_cons (a : Action) (actions : list Action) (w : World) :
  run (a :: actions) w = run actions (exec (perform a) w).
Proof. reflexivity. Qed.

Lemma run_app (actions1 actions2 : list Action) (w : World) :
  run (actions1 ++ actions2) w = run actions2 (run actions1 w).
Proof. unfold run. apply fold_left_app. Qed.

Lemma run_logs arrivals : forall w received,
  processingLogs (store w) = slice_last MAX_PROCESSING_LOGS received ->
  processingLogs (store (run (map log_action arrivals) w))
  = slice_last MAX_PROCESSING_LOGS
      (received ++ log_entries (processingLogSequence w) arrivals).
Proof.
  induction arrivals as [| a rest IH]; intros w received Hw.
  - simpl. rewrite app_nil_r. exact Hw.
  - rewrite map_cons, run_cons.
    change (perform (log_action a))
      with (handleProcessingEvent (arrival_now a)
              (EvLog (arrival_message a) (arrival_level a)
                 (arrival_timestamp a))).
    rewrite handle_log.
    rewrite (IH _ (received ++ [log_entry (processingLogSequence w) a])).
    + simpl. rewrite <- app_assoc. reflexivity.
    + simpl. rewrite Hw. apply slice_last_app_trimmed.
Qed.

(** No action lets the log grow beyond its capacity. *)
Lemma perform_logs_bounded (a : Action) (w : World) :
  (length (processingLogs (store w)) <= MAX_PROCESSING_LOGS)%nat ->
  (length (processingLogs (store (exec (perform a) w)))
   <= MAX_PROCESSING_LOGS)%nat.
Proof.
  intros Hw.
  destruct a as [entry | | | | | tags | | snapshot | now event | outcome];
    unfold perform.
  9: { destruct event; try rewrite handle_log; unfold_store; cbn;
       try (cbn; lia);
       try (rewrite length_slice_last; lia);
       destruct (processingState (store w)); cbn; exact Hw. }
  all: unfold_store; cbn.
  - destruct (bool_decide (phase (store w) = WorkflowPhase.review));
      cbn; [| exact Hw].
    destruct (length _ =? length _)%nat; cbn; [exact Hw |].
    destruct (collectUnmatchedMovFiles _); exact Hw.
  - destruct (_ || _ || _); cbn; [exact Hw |].
    destruct (length _ =? 0)%nat; cbn; [exact Hw | lia].
  - destruct (bool_decide (phase (store w) = WorkflowPhase.uploading));
      cbn; [exact Hw |].
    destruct (bool_decide (phase (store w) = WorkflowPhase.processing));
      cbn; exact Hw.
  - lia.
  - exact Hw.
  - exact Hw.
  - exact Hw.
  - exact Hw.
  - destruct outcome as [| e]; cbn; [exact Hw |].
    destruct (String.eqb (error_name e) "AbortError"); exact Hw.
Qed.

Lemma run_logs_bounded (actions : list Action) (w : World) :
  (length (processingLogs (store w)) <= MAX_PROCESSING_LOGS)%nat ->
  (length (processingLogs (store (run actions w)))
   <= MAX_PROCESSING_LOGS)%nat.
Proof.
  revert w. induction actions as [| a actions IH]; intros w Hw.
  - exact Hw.
  - rewrite run_cons. apply IH. by apply perform_logs_bounded.
Qed.
End Logs.

(** ** The event reducer and its log *)

(** C1, as amended: for every state in which [processingState] is null, a
    [log] event leaves [processingState] null and every other field of the
    state as it was, except [processingLogs], which receives the new entry
    (and is trimmed to its last 200 entries); the module-level sequence
    counter advances by one. *)
Theorem log_before_start_is_appended
    {utils : Utils} {dateApi : DateApi} (w : World) (now : Z)
    (m l ts : string) :
  processingState (store w) = None ->
  exec (handleProcessingEvent now (EvLog m l ts)) w
  = {| store :=
         {| files := files (store w);
            totalSize := totalSize (store w);
            st_uploadedBytes := st_uploadedBytes (store w);
            availableTags := availableTags (store w);
            selectedTags := selectedTags (store w);
            unmatchedMovFiles := unmatchedMovFiles (store w);
            hasMovFile := hasMovFile (store w);
            phase := phase (store w);
            uploadEntries := uploadEntries (store w);
            uploadError := uploadError (store w);
            processingError := processingError (store w);
            processingState := None;
            processingLogs :=
              slice_last 200
                (processingLogs (store w)
                 ++ [ {| id := log_id (processingLogSequence w);
                         message := m;
                         level := l;
                         timestamp := default now (Date_parse ts) |} ]) |};
       processingLogSequence := S (processingLogSequence w);
       uploadAbortController := uploadAbortController w;
       controllersCreated := controllersCreated w;
       aborted := aborted w;
       uploadCalls := uploadCalls w;
       closeCalls := closeCalls w |}.
Proof.
  intros Hnone. rewrite handle_log. cbn. rewrite Hnone. reflexivity.
Qed.

Lemma log_before_start_is_appended_witness :
  processingState (store Sample.fresh) = None /\
  processingLogs
    (store (exec (@handleProcessingEvent Sample.utils Sample.dateApi 7
                    (EvLog "scanning" "info" "not a date")) Sample.fresh))
  = [ {| id := "log-0"; message := "scanning"; level := "info";
         timestamp := 7 |} ].
Proof.
  split; [reflexivity |].
  rewrite (@log_before_start_is_appended Sample.utils Sample.dateApi
             Sample.fresh 7 "scanning" "info" "not a date" eq_refl).
  reflexivity.
Defined.

(** C1, as stated, fails: on a new store (no [start] event yet, so
    [processingState] is null) a [log] event is not a no-op, it puts its
    entry into [processingLogs]. *)
Lemma log_before_start_is_not_a_noop :
  let w := Sample.fresh in
  let w' := exec (@handleProcessingEvent Sample.utils Sample.dateApi 7
                    (EvLog "scanning" "info" "not a date")) w in
  processingState (store w) = None /\
  processingLogs (store w) = [] /\
  processingLogs (store w')
  = [ {| id := "log-0"; message := "scanning"; level := "info";
         timestamp := 7 |} ] /\
  store w' <> store w.
Proof.
  cbv zeta. split; [reflexivity |]. split; [reflexivity |].
  split; [reflexivity |].
  intros Heq. apply (f_equal processingLogs) in Heq. discriminate Heq.
Qed.

(** C5: after a [start] event, however many [log] events are delivered,
    [processingLogs] has at most 200 entries and is exactly the last
    [min 200 n] of the [n] entries received, in arrival order: what was
    evicted is a prefix of what was received.  The bound of 200 also holds
    after any further events and operations of any kind. *)
Theorem processing_logs_keep_the_latest_200
    {utils : Utils} {dateApi : DateApi} (w : World) (now : Z)
    (summary_ : string) (totals_ : gmap string Z)
    (options_ : option (option bool)) (arrivals : list LogArrival) :
  let started :=
    exec (handleProcessingEvent now (EvStart summary_ totals_ options_)) w in
  let received := log_entries (processingLogSequence w) arrivals in
  let logs := processingLogs (store (run (map log_action arrivals) started)) in
  (length logs <= 200)%nat /\
  length logs = Nat.min 200 (length arrivals) /\
  logs = slice_last 200 received /\
  (exists evicted, received = evicted ++ logs) /\
  (forall actions : list Action,
     (length (processingLogs (store (run actions started))) <= 200)%nat).
Proof.
  cbv zeta.
  set (started := exec (handleProcessingEvent now _) w).
  assert (Hseq : processingLogSequence started = processingLogSequence w).
  { subst started. unfold_store. reflexivity. }
  assert (Hlogs : processingLogs (store started)
                  = slice_last MAX_PROCESSING_LOGS []).
  { subst started. unfold_store. reflexivity. }
  pose proof (run_logs arrivals started [] Hlogs) as Hrun.
  rewrite app_nil_l, Hseq in Hrun. fold MAX_PROCESSING_LOGS. rewrite Hrun.
  split; [| split; [| split; [| split]]].
  - rewrite length_slice_last. unfold MAX_PROCESSING_LOGS. lia.
  - rewrite length_slice_last, length_log_entries. reflexivity.
  - reflexivity.
  - apply slice_last_suffix.
  - intros actions. apply run_logs_bounded. rewrite Hlogs. cbn. lia.
Qed.

(** ** The progress aggregator *)

Section NewMap.
Context {V : Type}.

Lemma new_Map_lookup_Some (pairs : list (nat * V)) i v :
  new_Map pairs !! i = Some v -> (i, v) ∈ pairs.
Proof.
  unfold new_Map. intros Hl.
  apply elem_of_list_to_map_2 in Hl. by apply elem_of_reverse.
Qed.

Lemma new_Map_lookup_None (pairs : list (nat * V)) i :
  new_Map pairs !! i = None -> forall v, (i, v) ∉ pairs.
Proof.
  unfold new_Map. intros Hl v Hin.
  apply not_elem_of_list_to_map_2 in Hl. apply Hl.
  apply list_elem_of_fmap. exists (i, v). split; [done |].
  by apply elem_of_reverse.
Qed.
End NewMap.

(** C2, as stated, fails: a snapshot that names the index of an entry
    already [done] overwrites that entry's [progress] and [uploadedBytes];
    only its status is kept. *)
Lemma upload_progress_touches_done_entries :
  let w' := exec (@handleUploadProgress Sample.utils late_snapshot) all_done in
  uploadEntries (store all_done) !! 0%nat
  = Some {| index := 0; name := "a.jpg"; size := 10;
            status := FileStatus.done; progress := 1%Qc;
            uploadedBytes := 10 |} /\
  uploadEntries (store w') !! 0%nat
  = Some {| index := 0; name := "a.jpg"; size := 10;
            status := FileStatus.done; progress := 0%Qc;
            uploadedBytes := 4 |}.
Proof. split; vm_compute; reflexivity. Qed.

(** C2, as amended: for every snapshot and every entry sequence the
    aggregator keeps the number and order of the entries and each entry's
    [index], [name] and [size]; an entry whose index is not in the snapshot
    is unchanged; an entry whose index is in the snapshot takes [progress]
    and [uploadedBytes] from a snapshot file of that index whatever its
    status is, and its status becomes [uploading] if it was [pending] and
    is kept otherwise; so no status is ever demoted. *)
Theorem upload_progress_updates_matching_entries
    {utils : Utils} (w : World) (snapshot : PhotoUploadProgressSnapshot) :
  let entries := uploadEntries (store w) in
  let entries' :=
    uploadEntries (store (exec (handleUploadProgress snapshot) w)) in
  length entries' = length entries /\
  forall (i : nat) (entry : FileProgressEntry),
    entries !! i = Some entry ->
    exists entry',
      entries' !! i = Some entry' /\
      index entry' = index entry /\
      name entry' = name entry /\
      size entry' = size entry /\
      (FileStatusOrder.rank (status entry)
       <= FileStatusOrder.rank (status entry'))%nat /\
      ((forall file, file ∈ snapshot_files snapshot ->
                     fp_index file <> index entry) ->
       entry' = entry) /\
      (forall file, file ∈ snapshot_files snapshot ->
                    fp_index file = index entry ->
       exists current,
         current ∈ snapshot_files snapshot /\
         fp_index current = index entry /\
         progress entry' = fp_progress current /\
         uploadedBytes entry' = fp_uploadedBytes current /\
         status entry' =
           if decide (status entry = FileStatus.pending)
           then FileStatus.uploading else status entry).
Proof.
  cbv zeta. unfold_store. cbn.
  set (progressMap := new_Map _).
  split; [apply length_map |].
  intros i entry Hi. rewrite list_lookup_fmap, Hi. cbn.
  eexists. split; [reflexivity |].
  destruct (progressMap !! index entry) as [current |] eqn:Hget.
  - apply new_Map_lookup_Some in Hget.
    apply list_elem_of_fmap in Hget as (file & Hpair & Hfile).
    injection Hpair as Hidx Hcur. subst current.
    cbn. repeat split.
    + destruct (status entry); vm_compute; lia.
    + intros Hno. exfalso. by apply (Hno file).
    + intros _ _ _. exists file. by repeat split.
  - cbn. repeat split; [lia |].
    intros file Hfile Hidx. exfalso.
    apply (new_Map_lookup_None _ _ Hget file).
    apply list_elem_of_fmap. exists file. by rewrite Hidx.
Qed.

Lemma upload_progress_updates_matching_entries_witness :
  exists entry',
    uploadEntries
      (store (exec (@handleUploadProgress Sample.utils late_snapshot) all_done))
      !! 0%nat = Some entry' /\
    status entry' = FileStatus.done /\
    uploadedBytes entry' = 4.
Proof.
  destruct (@upload_progress_updates_matching_entries Sample.utils all_done
              late_snapshot) as [_ H].
  destruct (H 0%nat
              {| index := 0; name := "a.jpg"; size := 10;
                 status := FileStatus.done; progress := 1%Qc;
                 uploadedBytes := 10 |} eq_refl)
    as (entry' & Hlook & _ & _ & _ & _ & _ & Hmatch).
  exists entry'. split; [exact Hlook |].
  destruct (Hmatch {| fp_index := 0; fp_progress := 0%Qc;
                      fp_uploadedBytes := 4 |})
    as (current & Hin & _ & _ & Hbytes & Hstatus).
  - apply list_elem_of_here.
  - reflexivity.
  - split; [exact Hstatus |].
    rewrite Hbytes. apply list_elem_of_singleton in Hin. by subst current.
Defined.

(** ** Stage counters *)

(** C3: after a [stage] or an [action] event is applied to a state whose
    [processingState] is present, the stage the event names has
    [processed <= total], its total is the normalized total, and if the
    normalized total is 0 its status is [completed]. *)
Theorem stage_and_action_keep_processed_within_total
    {utils : Utils} {dateApi : DateApi} (w : World) (now : Z)
    (prev : ProcessingState) :
  processingState (store w) = Some prev ->
  (forall (stage status_ : string) (processed_ total_ : JsValue)
          (summary_ : string),
     stage_is_normalized
       (exec (handleProcessingEvent now
                (EvStage stage status_ processed_ total_ summary_)) w)
       stage
       (normalizeStageCount total_
          (default 0 (total <$> stages prev !! stage)))) /\
  (forall (stage : string) (index_ total_ : JsValue) (summary_ : string),
     stage_is_normalized
       (exec (handleProcessingEvent now
                (EvAction stage index_ total_ summary_)) w)
       stage
       (normalizeStageCount total_
          (default 0 (total <$> stages prev !! stage)))).
Proof.
  intros Hprev.
  split; intros; unfold stage_is_normalized; unfold_store; cbn;
    rewrite Hprev; cbn; unfold stage_update;
    eexists _, _; (split; [reflexivity |]); cbn;
    rewrite lookup_insert_eq; (split; [reflexivity |]); cbn;
    (split; [reflexivity |]); (split; [lia |]);
    intros Hzero; rewrite Hzero; cbn; by rewrite ?orb_true_r.
Qed.

Lemma stage_and_action_keep_processed_within_total_witness :
  stage_is_normalized
    (exec (@handleProcessingEvent Sample.utils Sample.dateApi 6
             (EvStage "metadata" "progress" (js_int 5) (js_int 3) "sync"))
          started_metadata_3)
    "metadata" 3.
Proof.
  destruct (@stage_and_action_keep_processed_within_total
              Sample.utils Sample.dateApi started_metadata_3 6
              {| dryRun := false; summary := "sync";
                 totals := {[ "metadata" := 3 ]};
                 stages :=
                   @createStageStateFromTotals Sample.utils
                     {[ "metadata" := 3 ]};
                 completed := false; error := None; latestLog := None |}
              eq_refl) as [Hstage _].
  exact (Hstage "metadata" "progress" (js_int 5) (js_int 3) "sync").
Defined.

(** ** Terminal phases *)

(** C4, as stated, fails: [beginUpload] invoked in phase [error] (and as
    well in phase [completed]) starts a new upload, the phase becomes
    [uploading]. *)
Lemma beginUpload_leaves_terminal_phases :
  phase (store upload_failed) = WorkflowPhase.error /\
  phase (store (exec (@beginUpload Sample.utils) upload_failed))
  = WorkflowPhase.uploading /\
  phase (store all_done) = WorkflowPhase.completed /\
  phase (store (exec (@beginUpload Sample.utils) all_done))
  = WorkflowPhase.uploading.
Proof. repeat split; vm_compute; reflexivity. Qed.

(** C4, as amended: from phase [completed] or [error], the operations
    [removeEntry], [abortCurrent], [closeModal], [cleanup] and
    [setSelectedTags], the upload-progress snapshots, the [log], [stage],
    [action] and unknown events and the resolution of the transport leave
    the phase unchanged; [reset] returns it to [review]; [beginUpload]
    leaves it unchanged only when it is blocked (unmatched companion files,
    or no file) and otherwise moves it to [uploading]; a [start] event
    moves it to [processing], an [error] event to [error], a [complete]
    event to [completed] when [processingState] is present, and a rejection
    of the transport to [review] (abort) or [error] (failure). *)
Theorem phase_after_a_terminal_phase
    {utils : Utils} {dateApi : DateApi} (w : World) :
  phase (store w) = WorkflowPhase.completed
  \/ phase (store w) = WorkflowPhase.error ->
  let after (m : M unit) := phase (store (exec m w)) in
  let same (m : M unit) := after m = phase (store w) in
  (forall entry, same (removeEntry entry)) /\
  same abortCurrent /\
  same closeModal /\
  same cleanup /\
  (forall tags, same (setSelectedTags tags)) /\
  after reset = WorkflowPhase.review /\
  (unmatchedMovFiles (store w) <> [] \/ files (store w) = [] ->
   same beginUpload) /\
  (unmatchedMovFiles (store w) = [] -> files (store w) <> [] ->
   after beginUpload = WorkflowPhase.uploading) /\
  (forall snapshot, same (handleUploadProgress snapshot)) /\
  (forall now m l ts, same (handleProcessingEvent now (EvLog m l ts))) /\
  (forall now stage st p t s,
     same (handleProcessingEvent now (EvStage stage st p t s))) /\
  (forall now stage i t s,
     same (handleProcessingEvent now (EvAction stage i t s))) /\
  (forall now type_, same (handleProcessingEvent now (EvOther type_))) /\
  (forall now s t o,
     after (handleProcessingEvent now (EvStart s t o))
     = WorkflowPhase.processing) /\
  (forall now m,
     after (handleProcessingEvent now (EvError m)) = WorkflowPhase.error) /\
  (forall now s,
     after (handleProcessingEvent now (EvComplete s))
     = match processingState (store w) with
       | Some _ => WorkflowPhase.completed
       | None => phase (store w)
       end) /\
  same (beginUpload_settled Resolved) /\
  (forall e,
     after (beginUpload_settled (Rejected e))
     = if String.eqb (error_name e) "AbortError"
       then WorkflowPhase.review else WorkflowPhase.error).
Proof.
  intros Hterminal. cbv zeta.
  assert (Hreview : phase (store w) <> WorkflowPhase.review)
    by (destruct Hterminal as [-> | ->]; discriminate).
  assert (Huploading : phase (store w) <> WorkflowPhase.uploading)
    by (destruct Hterminal as [-> | ->]; discriminate).
  assert (Hprocessing : phase (store w) <> WorkflowPhase.processing)
    by (destruct Hterminal as [-> | ->]; discriminate).
  repeat apply conj; intros; unfold_store; cbn;
    rewrite ?(bool_decide_eq_false_2 _ Hreview),
            ?(bool_decide_eq_false_2 _ Huploading),
            ?(bool_decide_eq_false_2 _ Hprocessing); cbn;
    try reflexivity.
  all: try (destruct (processingState (store w)); reflexivity).
  - (* beginUpload, blocked *)
    destruct H as [Hunmatched | Hfiles].
    + destruct (unmatchedMovFiles (store w)); [done | reflexivity].
    + rewrite Hfiles. cbn.
      destruct (unmatchedMovFiles (store w)); reflexivity.
  - (* beginUpload, not blocked *)
    rewrite H. cbn. destruct (files (store w)); [done | reflexivity].
  - (* the transport rejects *)
    destruct (String.eqb (error_name e) "AbortError"); reflexivity.
Qed.

Lemma phase_after_a_terminal_phase_witness :
  phase (store (exec (@reset Sample.utils) upload_failed))
  = WorkflowPhase.review /\
  phase (store (exec (@abortCurrent Sample.utils) upload_failed))
  = WorkflowPhase.error.
Proof.
  destruct (@phase_after_a_terminal_phase Sample.utils Sample.dateApi
              upload_failed (or_intror eq_refl))
    as (_ & Habort & _ & _ & _ & Hreset & _).
  split; [exact Hreset | exact Habort].
Defined.

(** ** The aggregate byte counter *)

Section Aggregate.
Context {utils : Utils} {dateApi : DateApi}.

Lemma perform_recomputed (a : Action) (w : World) :
  recomputed w -> recomputed (exec (perform a) w).
Proof.
  unfold recomputed. intros Hw.
  destruct a as [entry | | | | | tags | | snapshot | now event | outcome];
    unfold perform; unfold_store; cbn.
  - (* removeEntry *)
    destruct (bool_decide (phase (store w) = WorkflowPhase.review));
      cbn; [| exact Hw].
    destruct (length _ =? length _)%nat; cbn; [exact Hw |].
    destruct (collectUnmatchedMovFiles _); reflexivity.
  - (* beginUpload *)
    destruct (_ || _ || _); cbn; [exact Hw |].
    destruct (length _ =? 0)%nat; cbn; [exact Hw | reflexivity].
  - (* abortCurrent *)
    destruct (bool_decide (phase (store w) = WorkflowPhase.uploading));
      cbn; [reflexivity |].
    destruct (bool_decide (phase (store w) = WorkflowPhase.processing));
      cbn; [reflexivity | exact Hw].
  - reflexivity.
  - exact Hw.
  - exact Hw.
  - exact Hw.
  - reflexivity.
  - (* handleProcessingEvent *)
    destruct event; cbn; try reflexivity;
      destruct (processingState (store w)); cbn;
      first [exact Hw | reflexivity].
  - (* beginUpload_settled *)
    destruct outcome as [| e]; cbn; [exact Hw |].
    destruct (String.eqb (error_name e) "AbortError"); reflexivity.
Qed.

Lemma run_recomputed (actions : list Action) (w : World) :
  recomputed w -> recomputed (run actions w).
Proof.
  revert w. induction actions as [| a actions IH]; intros w Hw.
  - exact Hw.
  - rewrite run_cons. apply IH. by apply perform_recomputed.
Qed.
End Aggregate.

Lemma uploadedBytes_of_untouched_entries (entries : list FileProgressEntry) :
  Forall (fun entry => uploadedBytes entry = 0) entries ->
  SpecUtils.calculateUploadedBytes entries = 0.
Proof.
  induction 1 as [| entry entries Hentry _ IH]; [reflexivity |].
  cbn. fold (SpecUtils.calculateUploadedBytes entries). lia.
Qed.

Lemma uploadedBytes_of_new_entries (files : list File) :
  SpecUtils.calculateUploadedBytes (SpecUtils.createFileEntries files) = 0.
Proof.
  apply uploadedBytes_of_untouched_entries, Forall_lookup.
  intros i entry. unfold SpecUtils.createFileEntries.
  rewrite list_lookup_imap.
  destruct (files !! i); cbn; [| discriminate].
  intros [= <-]. reflexivity.
Qed.

(** C6: in every state reached from the initial state of a store by any
    sequence of operations, upload-progress snapshots, server events and
    transport outcomes, the aggregate [uploadedBytes] is the sum of
    [uploadedBytes] over the entries of [uploadEntries]. *)
Theorem uploadedBytes_is_the_sum_over_entries
    (conv : SpecUtils.NamingConvention) (dateApi : DateApi)
    (initialFiles : list File) (availableTags_ : list string)
    (sequence : nat) (actions : list Action) :
  let w :=
    @run (SpecUtils.utils conv) dateApi actions
      (@createPhotoUploadStore (SpecUtils.utils conv) initialFiles
         availableTags_ sequence) in
  st_uploadedBytes (store w)
  = foldr (fun entry acc => uploadedBytes entry + acc) 0
      (uploadEntries (store w)).
Proof.
  cbv zeta.
  apply (@run_recomputed (SpecUtils.utils conv) dateApi).
  unfold recomputed, createPhotoUploadStore.
  destruct (collectUnmatchedMovFiles initialFiles) as [unmatched hasMov].
  cbn. symmetry. apply uploadedBytes_of_new_entries.
Qed.

(** ** Cancelling *)

(** C7: [abortCurrent] in phase [processing] yields phase [error] with the
    fixed message as [processingError]; every entry whose status was
    [processing] has status [error] and is otherwise as before, and every
    other entry, in particular every [done] entry, is unchanged.  In phase
    [review], [completed] or [error], [abortCurrent] changes nothing. *)
Theorem abortCurrent_in_processing_and_elsewhere
    {utils : Utils} (w : World) :
  (phase (store w) = WorkflowPhase.processing ->
   let w' := exec abortCurrent w in
   phase (store w') = WorkflowPhase.error /\
   processingError (store w') = Some "服务器处理已终止" /\
   length (uploadEntries (store w')) = length (uploadEntries (store w)) /\
   forall (i : nat) (entry : FileProgressEntry),
     uploadEntries (store w) !! i = Some entry ->
     (status entry = FileStatus.processing ->
      uploadEntries (store w') !! i
      = Some (entry_with_status FileStatus.error entry)) /\
     (status entry <> FileStatus.processing ->
      uploadEntries (store w') !! i = Some entry) /\
     (status entry = FileStatus.done ->
      uploadEntries (store w') !! i = Some entry)) /\
  (phase (store w) = WorkflowPhase.review
   \/ phase (store w) = WorkflowPhase.completed
   \/ phase (store w) = WorkflowPhase.error ->
   exec abortCurrent w = w).
Proof.
  split.
  - intros Hphase. cbv zeta. unfold_store. cbn. rewrite Hphase.
    decide_phases. cbn.
    repeat split; [apply length_map | | |];
      rewrite list_lookup_fmap, H; cbn; intros Hstatus.
    + rewrite Hstatus. reflexivity.
    + destruct (decide (status entry = FileStatus.processing)); [done |].
      by destruct entry.
    + destruct entry; cbn in *. subst. reflexivity.
  - intros Hphase. unfold_store.
    rewrite !bool_decide_eq_false_2;
      [reflexivity | |];
      destruct Hphase as [-> | [-> | ->]]; discriminate.
Qed.

Lemma abortCurrent_in_processing_and_elsewhere_witness :
  phase (store restarted) = WorkflowPhase.processing /\
  phase (store (exec (@abortCurrent Sample.utils) restarted))
  = WorkflowPhase.error /\
  uploadEntries (store (exec (@abortCurrent Sample.utils) restarted)) !! 0%nat
  = Some {| index := 0; name := "a.jpg"; size := 10;
            status := FileStatus.done; progress := 1%Qc;
            uploadedBytes := 10 |} /\
  exec (@abortCurrent Sample.utils) Sample.fresh = Sample.fresh.
Proof.
  destruct (@abortCurrent_in_processing_and_elsewhere Sample.utils restarted)
    as [Hprocessing _].
  destruct (Hprocessing eq_refl) as (Hphase & _ & _ & Hentries).
  destruct (Hentries 0%nat
              {| index := 0; name := "a.jpg"; size := 10;
                 status := FileStatus.done; progress := 1%Qc;
                 uploadedBytes := 10 |} eq_refl) as (_ & _ & Hdone).
  split; [reflexivity |]. split; [exact Hphase |].
  split; [exact (Hdone eq_refl) |].
  destruct (@abortCurrent_in_processing_and_elsewhere Sample.utils
              Sample.fresh) as [_ Helse].
  exact (Helse (or_introl eq_refl)).
Defined.

(** ** Starting an upload *)

(** C8: [beginUpload] changes nothing (neither the state nor anything else
    the store owns) whenever the unmatched companion-file set is not empty,
    or the phase is [uploading] or [processing], or there is no file.  In
    particular, in a store created from a selection that holds a file with
    the companion-video extension and no image of the same base name, that
    file is in the unmatched set and [beginUpload] changes nothing. *)
Theorem beginUpload_is_blocked (conv : SpecUtils.NamingConvention) :
  (forall (utils : Utils) (w : World),
     unmatchedMovFiles (store w) <> []
     \/ phase (store w) = WorkflowPhase.uploading
     \/ phase (store w) = WorkflowPhase.processing
     \/ files (store w) = [] ->
     exec (@beginUpload utils) w = w) /\
  (forall (initialFiles : list File) (availableTags_ : list string)
          (sequence : nat) (video : File),
     video ∈ initialFiles ->
     SpecUtils.isCompanionVideo conv (file_name video) = true ->
     (forall image, image ∈ initialFiles ->
        SpecUtils.isImage conv (file_name image) = true ->
        SpecUtils.baseName conv (file_name image)
        <> SpecUtils.baseName conv (file_name video)) ->
     let w :=
       @createPhotoUploadStore (SpecUtils.utils conv) initialFiles
         availableTags_ sequence in
     video ∈ unmatchedMovFiles (store w) /\
     exec (@beginUpload (SpecUtils.utils conv)) w = w).
Proof.
  assert (Hblocked : forall (utils : Utils) (w : World),
     unmatchedMovFiles (store w) <> []
     \/ phase (store w) = WorkflowPhase.uploading
     \/ phase (store w) = WorkflowPhase.processing
     \/ files (store w) = [] ->
     exec (@beginUpload utils) w = w).
  { intros utils w Hguard. unfold_store.
    destruct Hguard as [Hunmatched | [Hphase | [Hphase | Hfiles]]].
    - destruct (unmatchedMovFiles (store w)); [done | reflexivity].
    - rewrite Hphase. decide_phases. by rewrite orb_true_r.
    - rewrite Hphase. decide_phases. by rewrite orb_true_r.
    - rewrite Hfiles. cbn. by destruct (_ || _ || _). }
  split; [exact Hblocked |].
  intros initialFiles availableTags_ sequence video Hin Hvideo Himages.
  cbv zeta.
  assert (Hunmatched :
    video ∈ unmatchedMovFiles
              (store (@createPhotoUploadStore (SpecUtils.utils conv)
                        initialFiles availableTags_ sequence))).
  { cbn. apply list_elem_of_In, filter_In.
    split; [by apply list_elem_of_In |].
    rewrite Hvideo. cbn. apply negb_true_iff.
    apply not_true_iff_false. intros Hex.
    apply existsb_exists in Hex as (image & Himage & Hmatch).
    apply andb_true_iff in Hmatch as [Hisimage Hname].
    apply String.eqb_eq in Hname.
    apply (Himages image); [by apply list_elem_of_In | done | done]. }
  split; [exact Hunmatched |].
  apply Hblocked. left. intros Hnil. rewrite Hnil in Hunmatched.
  by apply not_elem_of_nil in Hunmatched.
Qed.

Lemma beginUpload_is_blocked_witness :
  let w := @createPhotoUploadStore Sample.utils lonely_video [] 0 in
  unmatchedMovFiles (store w)
  = [ {| file_name := "b.mov"; file_size := 50 |} ] /\
  exec (@beginUpload Sample.utils) w = w /\
  exec (@beginUpload Sample.utils) started_metadata_3 = started_metadata_3.
Proof.
  cbv zeta. split; [reflexivity |].
  destruct (beginUpload_is_blocked Sample.conv) as [Hstate Hselection].
  split.
  - refine (proj2 (Hselection lonely_video [] 0%nat
                     {| file_name := "b.mov"; file_size := 50 |} _ _ _)).
    + apply list_elem_of_further, list_elem_of_here.
    + reflexivity.
    + intros image Himage Hisimage.
      apply elem_of_cons in Himage as [-> | Himage];
        [vm_compute; discriminate |].
      apply list_elem_of_singleton in Himage as ->.
      vm_compute in Hisimage. discriminate Hisimage.
  - apply Hstate. right. right. left. reflexivity.
Defined.

(** ** Selecting tags *)

(** C9, as stated, fails: [setSelectedTags] has no phase guard, in phase
    [uploading] it replaces the selected tags all the same. *)
Lemma setSelectedTags_changes_tags_while_uploading :
  phase (store uploading_now) = WorkflowPhase.uploading /\
  selectedTags (store uploading_now) = [] /\
  selectedTags (store (exec (setSelectedTags ["2024"]) uploading_now))
  = ["2024"].
Proof. repeat split. Qed.

(** C9, as amended: in every phase, [setSelectedTags tags] makes [tags]
    the selected tags and leaves every other field of the state, and
    everything else the store owns, unchanged. *)
Theorem setSelectedTags_sets_tags_in_every_phase
    (w : World) (tags : list string) :
  exec (setSelectedTags tags) w
  = {| store :=
         {| files := files (store w);
            totalSize := totalSize (store w);
            st_uploadedBytes := st_uploadedBytes (store w);
            availableTags := availableTags (store w);
            selectedTags := tags;
            unmatchedMovFiles := unmatchedMovFiles (store w);
            hasMovFile := hasMovFile (store w);
            phase := phase (store w);
            uploadEntries := uploadEntries (store w);
            uploadError := uploadError (store w);
            processingError := processingError (store w);
            processingState := processingState (store w);
            processingLogs := processingLogs (store w) |};
       processingLogSequence := processingLogSequence w;
       uploadAbortController := uploadAbortController w;
       controllersCreated := controllersCreated w;
       aborted := aborted w;
       uploadCalls := uploadCalls w;
       closeCalls := closeCalls w |}.
Proof. reflexivity. Qed.

(** ** Completion *)

(** C10: a [complete] event applied to a state whose [processingState] is
    present sets [progress] to 1 and [uploadedBytes] to [size] on every
    entry; an entry in status [processing] becomes [done], and an entry in
    any other status (such as [error] or [pending]) keeps its status but
    has its progress and byte count forced all the same. *)
Theorem complete_forces_progress_on_every_entry
    {utils : Utils} {dateApi : DateApi} (w : World) (now : Z)
    (summary_ : string) (prev : ProcessingState) :
  processingState (store w) = Some prev ->
  let w' := exec (handleProcessingEvent now (EvComplete summary_)) w in
  length (uploadEntries (store w')) = length (uploadEntries (store w)) /\
  forall (i : nat) (entry : FileProgressEntry),
    uploadEntries (store w) !! i = Some entry ->
    exists entry',
      uploadEntries (store w') !! i = Some entry' /\
      progress entry' = 1%Qc /\
      uploadedBytes entry' = size entry /\
      index entry' = index entry /\
      name entry' = name entry /\
      size entry' = size entry /\
      (status entry = FileStatus.processing ->
       status entry' = FileStatus.done) /\
      (status entry <> FileStatus.processing ->
       status entry' = status entry).
Proof.
  intros Hprev. cbv zeta. unfold_store. cbn. rewrite Hprev. cbn.
  split; [apply length_map |].
  intros i entry Hentry. rewrite list_lookup_fmap, Hentry. cbn.
  eexists. split; [reflexivity |]. cbn.
  repeat split; intros Hstatus.
  - rewrite Hstatus. reflexivity.
  - by destruct (decide (status entry = FileStatus.processing)).
Qed.

Lemma complete_forces_progress_on_every_entry_witness :
  uploadEntries (store processing_failed) !! 0%nat
  = Some {| index := 0; name := "a.jpg"; size := 10;
            status := FileStatus.error; progress := 0%Qc;
            uploadedBytes := 0 |} /\
  exists entry',
    uploadEntries
      (store (exec (@handleProcessingEvent Sample.utils Sample.dateApi 9
                      (EvComplete "synced")) processing_failed)) !! 0%nat
    = Some entry' /\
    status entry' = FileStatus.error /\
    progress entry' = 1%Qc /\
    uploadedBytes entry' = 10.
Proof.
  split; [reflexivity |].
  destruct (@complete_forces_progress_on_every_entry
              Sample.utils Sample.dateApi processing_failed 9 "synced"
              {| dryRun := false; summary := "sync";
                 totals := {[ "metadata" := 3 ]};
                 stages :=
                   @createStageStateFromTotals Sample.utils
                     {[ "metadata" := 3 ]};
                 completed := false; error := Some "disk full";
                 latestLog := None |}
              eq_refl) as [_ Hentries].
  destruct (Hentries 0%nat
              {| index := 0; name := "a.jpg"; size := 10;
                 status := FileStatus.error; progress := 0%Qc;
                 uploadedBytes := 0 |} eq_refl)
    as (entry' & Hlook & Hprogress & Hbytes & _ & _ & _ & _ & Hkept).
  exists entry'. split; [exact Hlook |].
  split; [apply Hkept; discriminate |].
  split; [exact Hprogress | exact Hbytes].
Defined.

(** * Further properties of the store *)

(** ** Events *)

Lemma map_retag (from to : FileStatus.t) (entries : list FileProgressEntry) :
  map (fun entry =>
         entry_with_status
           (if decide (status entry = from) then to else status entry) entry)
      entries
  = map (retag from to) entries.
Proof.
  apply map_ext. intros entry. unfold retag.
  destruct (decide (status entry = from)); [reflexivity | by destruct entry].
Qed.

(** X1: while [processingState] is null, a [stage], [action] or [complete]
    event and an event of unknown type change nothing at all. *)
Theorem events_before_start_are_dropped
    {utils : Utils} {dateApi : DateApi} (w : World) (now : Z) :
  processingState (store w) = None ->
  (forall stage status_ processed_ total_ summary_,
     exec (handleProcessingEvent now
             (EvStage stage status_ processed_ total_ summary_)) w = w) /\
  (forall stage index_ total_ summary_,
     exec (handleProcessingEvent now
             (EvAction stage index_ total_ summary_)) w = w) /\
  (forall summary_,
     exec (handleProcessingEvent now (EvComplete summary_)) w = w) /\
  (forall type_, exec (handleProcessingEvent now (EvOther type_)) w = w).
Proof.
  intros Hnone.
  repeat apply conj; intros; unfold_store; cbn; rewrite Hnone; cbn;
    by destruct w as [[] ? ? ? ? ? ?].
Qed.

Lemma events_before_start_are_dropped_witness :
  exec (@handleProcessingEvent Sample.utils Sample.dateApi 3
          (EvComplete "synced")) uploading_now = uploading_now.
Proof.
  apply (@events_before_start_are_dropped Sample.utils Sample.dateApi
           uploading_now 3 eq_refl).
Defined.

(** X2: an [error] event always yields phase [error] with its message as
    [processingError], and keeps the log, the upload error, the files and
    the tags.  If [processingState] is null nothing else changes; if it is
    present it records the message, the entries in status [processing] move
    to [error] and all other entries are left as they are. *)
Theorem error_event_is_always_acted_on
    {utils : Utils} {dateApi : DateApi} (w : World) (now : Z)
    (message_ : string) :
  let w' := exec (handleProcessingEvent now (EvError message_)) w in
  phase (store w') = WorkflowPhase.error /\
  processingError (store w') = Some message_ /\
  processingLogs (store w') = processingLogs (store w) /\
  uploadError (store w') = uploadError (store w) /\
  files (store w') = files (store w) /\
  selectedTags (store w') = selectedTags (store w) /\
  match processingState (store w) with
  | None =>
      processingState (store w') = None /\
      uploadEntries (store w') = uploadEntries (store w) /\
      st_uploadedBytes (store w') = st_uploadedBytes (store w)
  | Some prev =>
      (exists ps, processingState (store w') = Some ps /\
                  error ps = Some message_ /\
                  stages ps = stages prev /\
                  completed ps = completed prev /\
                  latestLog ps = latestLog prev) /\
      uploadEntries (store w')
      = map (retag FileStatus.processing FileStatus.error)
          (uploadEntries (store w))
  end.
Proof.
  cbv zeta. unfold_store. cbn.
  destruct (processingState (store w)) as [prev |] eqn:Hprev; cbn.
  - repeat split; [| apply map_retag].
    eexists. split; [reflexivity |]. by repeat split.
  - by repeat split.
Qed.

(** X3: a [stage] or [action] event applied while [processingState] is
    present records the named stage as [completed] exactly when the server
    said [complete] (stage events only) or the normalized total is 0, and
    as [running] otherwise; every other stage keeps its record, and outside
    [processingState] nothing changes. *)
Theorem stage_events_touch_one_stage
    {utils : Utils} {dateApi : DateApi} (w : World) (now : Z)
    (prev : ProcessingState) (event : PhotoSyncProgressEvent)
    (stage summary_ : string) (server_complete : bool) :
  processingState (store w) = Some prev ->
  (exists status_ processed_ total_,
     event = EvStage stage status_ processed_ total_ summary_ /\
     server_complete = String.eqb status_ "complete")
  \/ (exists index_ total_,
        event = EvAction stage index_ total_ summary_ /\
        server_complete = false) ->
  let w' := exec (handleProcessingEvent now event) w in
  exists (ps : ProcessingState) (st : StageState),
    w' = with_store (assign (store w) [f_processingState (Some ps)]) w /\
    stages ps !! stage = Some st /\
    (stage_status st = StageStatus.completed
     <-> server_complete = true \/ total st = 0) /\
    (stage_status st = StageStatus.running
     <-> server_complete = false /\ total st <> 0) /\
    (forall other, other <> stage ->
                   stages ps !! other = stages prev !! other) /\
    summary ps = summary_ /\
    dryRun ps = dryRun prev /\
    totals ps = totals prev /\
    completed ps = completed prev /\
    error ps = error prev /\
    latestLog ps = latestLog prev.
Proof.
  intros Hprev Hevent. cbv zeta.
  assert (Hshape : exists reported_processed reported_total,
    exec (handleProcessingEvent now event) w
    = with_store
        (assign (store w)
           [f_processingState
              (Some (stage_update prev stage server_complete
                       reported_processed reported_total summary_))]) w).
  { destruct Hevent as [(status_ & processed_ & total_ & -> & ->)
                       | (index_ & total_ & -> & ->)];
      eexists _, _; unfold_store; cbn; rewrite Hprev; reflexivity. }
  destruct Hshape as (rp & rt & ->).
  eexists _, _. split; [reflexivity |].
  unfold stage_update. cbn.
  rewrite lookup_insert_eq. split; [reflexivity |]. cbn.
  set (normalizedTotal := normalizeStageCount rt _).
  repeat split; try done.
  - destruct server_complete; [by left |]. cbn.
    destruct (Z.eqb_spec normalizedTotal 0); [by right | discriminate].
  - intros [-> | ->]; [reflexivity |]. by rewrite orb_true_r.
  - destruct server_complete; [discriminate | reflexivity].
  - destruct server_complete; [discriminate |]. cbn in *.
    destruct (Z.eqb_spec normalizedTotal 0); [discriminate | done].
  - intros [-> Hne]. cbn.
    destruct (Z.eqb_spec normalizedTotal 0); [done | reflexivity].
  - intros other Hother. by rewrite lookup_insert_ne.
Qed.

Lemma stage_events_touch_one_stage_witness :
  exists (ps : ProcessingState) (st : StageState),
    processingState
      (store (exec (@handleProcessingEvent Sample.utils Sample.dateApi 6
                      (EvAction "thumbnails" (js_int 1) (js_int 4) "sync"))
                   started_metadata_3)) = Some ps /\
    stages ps !! "thumbnails" = Some st /\
    stages ps !! "metadata"
    = Some {| stage_status := StageStatus.running; processed := 0;
              total := 3 |}.
Proof.
  destruct (@stage_events_touch_one_stage Sample.utils Sample.dateApi
              started_metadata_3 6
              {| dryRun := false; summary := "sync";
                 totals := {[ "metadata" := 3 ]};
                 stages :=
                   @createStageStateFromTotals Sample.utils
                     {[ "metadata" := 3 ]};
                 completed := false; error := None; latestLog := None |}
              (EvAction "thumbnails" (js_int 1) (js_int 4) "sync")
              "thumbnails" "sync" false eq_refl)
    as (ps & st & Hw & Hst & _ & _ & Hother & _).
  { right. by exists (js_int 1), (js_int 4). }
  exists ps, st. split; [by rewrite Hw |]. split; [exact Hst |].
  rewrite (Hother "metadata") by discriminate. vm_compute. reflexivity.
Defined.

(** ** What holds in every state of a store *)

Lemma last_slice_last_snoc {A} (n : nat) (l : list A) (x : A) :
  (0 < n)%nat -> list.last (slice_last n (l ++ [x])) = Some x.
Proof.
  intros Hn. unfold slice_last. rewrite length_app. cbn.
  rewrite drop_app_le by lia. apply last_snoc.
Qed.

Section Invariants.
Context {utils : Utils} {dateApi : DateApi}.

Lemma perform_phase_agrees (a : Action) (w : World) :
  phase_agrees (store w) -> phase_agrees (store (exec (perform a) w)).
Proof.
  unfold phase_agrees. intros Hw.
  destruct a as [entry | | | | | tags | | snapshot | now event | outcome];
    unfold perform; unfold_store; cbn.
  - destruct (bool_decide (phase (store w) = WorkflowPhase.review)) eqn:Hp;
      cbn; [| exact Hw].
    apply bool_decide_eq_true_1 in Hp.
    destruct (length _ =? length _)%nat; cbn; [exact Hw |].
    destruct (collectUnmatchedMovFiles _); cbn. by rewrite Hp.
  - destruct (_ || _ || _); cbn; [exact Hw |].
    destruct (length _ =? 0)%nat; cbn; [exact Hw | reflexivity].
  - destruct (bool_decide (phase (store w) = WorkflowPhase.uploading));
      cbn; [exact I |].
    destruct (bool_decide (phase (store w) = WorkflowPhase.processing));
      cbn; [exact I | exact Hw].
  - exact I.
  - exact Hw.
  - exact Hw.
  - exact Hw.
  - exact Hw.
  - destruct event; cbn; try discriminate;
      destruct (processingState (store w)) as [prev |] eqn:Hprev; cbn;
      try exact I; try (rewrite Hprev; exact Hw);
      try (destruct (phase (store w)); try done;
           destruct Hw as (ps & [= <-] & Hc); by eexists).
    by eexists.
  - destruct outcome as [| e]; cbn; [exact Hw |].
    destruct (String.eqb (error_name e) "AbortError"); exact I.
Qed.

Lemma perform_latest_log_mirrors (a : Action) (w : World) :
  latest_log_mirrors (store w) ->
  latest_log_mirrors (store (exec (perform a) w)).
Proof.
  unfold latest_log_mirrors. intros Hw.
  destruct a as [entry | | | | | tags | | snapshot | now event | outcome];
    unfold perform; unfold_store; cbn.
  - destruct (bool_decide (phase (store w) = WorkflowPhase.review));
      cbn; [| exact Hw].
    destruct (length _ =? length _)%nat; cbn; [exact Hw |].
    destruct (collectUnmatchedMovFiles _); exact Hw.
  - destruct (_ || _ || _); cbn; [exact Hw |].
    destruct (length _ =? 0)%nat; cbn; [exact Hw | discriminate].
  - destruct (bool_decide (phase (store w) = WorkflowPhase.uploading));
      cbn; [exact Hw |].
    destruct (bool_decide (phase (store w) = WorkflowPhase.processing));
      cbn; exact Hw.
  - discriminate.
  - exact Hw.
  - exact Hw.
  - exact Hw.
  - exact Hw.
  - destruct event; cbn;
      destruct (processingState (store w)) as [prev |] eqn:Hprev; cbn;
      intros ps Hps; try rewrite Hprev in Hps; try discriminate Hps;
      injection Hps as <-; cbn;
      first [ exact (Hw _ eq_refl)
            | reflexivity
            | rewrite last_slice_last_snoc
                by (unfold MAX_PROCESSING_LOGS; lia);
              reflexivity ].
  - destruct outcome as [| e]; cbn; [exact Hw |].
    destruct (String.eqb (error_name e) "AbortError"); exact Hw.
Qed.
Lemma perform_derived_from_files (a : Action) (w : World) :
  derived_from_files (store w) ->
  derived_from_files (store (exec (perform a) w)).
Proof.
  unfold derived_from_files. intros (Htotal & Hpartition & Hentries).
  assert (Hretag : forall from to,
    map entry_file
      (map (fun entry =>
              entry_with_status
                (if decide (status entry = from) then to else status entry)
                entry) (uploadEntries (store w)))
    = map entry_file (createFileEntries (files (store w)))).
  { intros from to. rewrite <- Hentries, map_map. reflexivity. }
  destruct a as [entry | | | | | tags | | snapshot | now event | outcome];
    unfold perform; unfold_store; cbn.
  - destruct (bool_decide (phase (store w) = WorkflowPhase.review));
      cbn; [| done].
    destruct (length _ =? length _)%nat; cbn; [done |].
    destruct (collectUnmatchedMovFiles (filter_index _ _ _)) eqn:Hc; cbn.
    by rewrite Hc.
  - destruct (_ || _ || _); cbn; [done |].
    destruct (length _ =? 0)%nat; cbn; [done |].
    repeat split; try done.
    rewrite <- Hentries, map_map. reflexivity.
  - destruct (bool_decide (phase (store w) = WorkflowPhase.uploading));
      cbn; [done |].
    destruct (bool_decide (phase (store w) = WorkflowPhase.processing));
      cbn; [| done].
    repeat split; try done; apply Hretag.
  - done.
  - done.
  - done.
  - done.
  - repeat split; try done.
    rewrite <- Hentries, map_map. apply map_ext. intros entry.
    by destruct (_ !! _).
  - destruct event; cbn;
      try (destruct (processingState (store w)); cbn);
      repeat split; try done; try apply Hretag.
    rewrite <- Hentries, map_map. reflexivity.
  - destruct outcome as [| e]; cbn; [done |].
    destruct (String.eqb (error_name e) "AbortError"); cbn;
      repeat split; try done; apply Hretag.
Qed.

Lemma log_id_inj (n m : nat) : log_id n = log_id m -> n = m.
Proof.
  unfold log_id. cbn. intros [= Heq].
  assert (Hround : forall d,
    option_map Nat.of_uint
      (NilZero.uint_of_string (NilZero.string_of_uint d))
    = Some (Nat.of_uint d)).
  { intros d. destruct d; [reflexivity | ..];
      by rewrite NilZero.usu. }
  change ("" +:+ ?x)%string with x in Heq.
  pose proof (Hround (Nat.to_uint n)) as Hn.
  rewrite Heq, Hround in Hn.
  injection Hn as Hn. by rewrite !Unsigned.of_to in Hn.
Qed.

Lemma perform_log_ids_ascend (a : Action) (w : World) :
  log_ids_ascend w -> log_ids_ascend (exec (perform a) w).
Proof.
  unfold log_ids_ascend. intros (ns & Hids & Hsorted & Hbelow).
  assert (Hcleared : exists ns' : list nat,
    @map ProcessingLogEntry string id [] = map log_id ns' /\
    StronglySorted lt ns' /\
    Forall (fun n => (n < processingLogSequence w)%nat) ns').
  { exists []. repeat split; constructor. }
  destruct a as [entry | | | | | tags | | snapshot | now event | outcome];
    unfold perform.
  9: { destruct event;
         try (unfold_store; cbn;
              try (destruct (processingState (store w)); cbn);
              first [by exists ns | exact Hcleared]).
       rewrite handle_log. cbn.
       exists (slice_last MAX_PROCESSING_LOGS (ns ++ [processingLogSequence w])).
       assert (Hlen : length (processingLogs (store w)) = length ns).
       { by rewrite <- (length_map id), Hids, length_map. }
       split; [| split].
       - unfold slice_last.
         change (@map) with (@fmap list _).
         rewrite !fmap_drop, !fmap_app, !length_app. cbn.
         change (@fmap list _) with (@map).
         by rewrite Hids, Hlen.
       - destruct (slice_last_suffix MAX_PROCESSING_LOGS
                     (ns ++ [processingLogSequence w])) as [evicted Heq].
         apply (StronglySorted_app_1_r _ evicted). rewrite <- Heq.
         apply StronglySorted_app_2; [| done | repeat constructor].
         intros x1 x2 Hx1 Hx2. apply list_elem_of_singleton in Hx2 as ->.
         by apply (proj1 (Forall_forall _ _) Hbelow).
       - apply Forall_drop, Forall_app. split.
         + eapply Forall_impl; [exact Hbelow |]. cbn. lia.
         + repeat constructor. }
  all: unfold_store; cbn.
  - destruct (bool_decide (phase (store w) = WorkflowPhase.review));
      cbn; [| by exists ns].
    destruct (length _ =? length _)%nat; cbn; [by exists ns |].
    destruct (collectUnmatchedMovFiles _); by exists ns.
  - destruct (_ || _ || _); cbn; [by exists ns |].
    destruct (length _ =? 0)%nat; cbn; [by exists ns | exact Hcleared].
  - destruct (bool_decide (phase (store w) = WorkflowPhase.uploading));
      cbn; [by exists ns |].
    destruct (bool_decide (phase (store w) = WorkflowPhase.processing));
      cbn; by exists ns.
  - exact Hcleared.
  - by exists ns.
  - by exists ns.
  - by exists ns.
  - by exists ns.
  - destruct outcome as [| e]; cbn; [by exists ns |].
    destruct (String.eqb (error_name e) "AbortError"); by exists ns.
Qed.

Lemma run_invariant (P : World -> Prop) :
  (forall a w, P w -> P (exec (perform a) w)) ->
  forall actions w, P w -> P (run actions w).
Proof.
  intros Hstep actions. induction actions as [| a actions IH]; intros w Hw.
  - exact Hw.
  - rewrite run_cons. apply IH, Hstep, Hw.
Qed.

(** X4: in every state a store can reach, the phase tells whether the
    server has acknowledged the processing: in phase [uploading]
    [processingState] is null, in phase [processing] it is present, and in
    phase [completed] it is present with its [completed] flag set. *)
Theorem phase_tells_processingState
    (initialFiles : list File) (availableTags_ : list string)
    (sequence : nat) (actions : list Action) :
  let s :=
    store (run actions
             (createPhotoUploadStore initialFiles availableTags_ sequence)) in
  (phase s = WorkflowPhase.uploading -> processingState s = None) /\
  (phase s = WorkflowPhase.processing -> processingState s <> None) /\
  (phase s = WorkflowPhase.completed ->
   exists ps, processingState s = Some ps /\ completed ps = true).
Proof.
  cbv zeta.
  assert (Hagrees : phase_agrees
    (store (run actions
              (createPhotoUploadStore initialFiles availableTags_ sequence)))).
  { apply (run_invariant (fun w => phase_agrees (store w)));
      [apply perform_phase_agrees |].
    unfold createPhotoUploadStore.
    destruct (collectUnmatchedMovFiles initialFiles). exact I. }
  unfold phase_agrees in Hagrees.
  repeat split; intros Hphase; by rewrite Hphase in Hagrees.
Qed.

(** X5: in every state a store can reach in which [processingState] is
    present, its [latestLog] is the snapshot (message, level, timestamp) of
    the last entry of [processingLogs], and is absent exactly when the log
    is empty. *)
Theorem latestLog_mirrors_the_last_log
    (initialFiles : list File) (availableTags_ : list string)
    (sequence : nat) (actions : list Action) :
  let s :=
    store (run actions
             (createPhotoUploadStore initialFiles availableTags_ sequence)) in
  forall ps, processingState s = Some ps ->
    latestLog ps = latest_of <$> list.last (processingLogs s) /\
    (latestLog ps = None <-> processingLogs s = []).
Proof.
  cbv zeta. intros ps Hps.
  assert (Hmirror : latest_log_mirrors
    (store (run actions
              (createPhotoUploadStore initialFiles availableTags_ sequence)))).
  { apply (run_invariant (fun w => latest_log_mirrors (store w)));
      [apply perform_latest_log_mirrors |].
    unfold createPhotoUploadStore.
    destruct (collectUnmatchedMovFiles initialFiles). intros ? [=]. }
  rewrite (Hmirror ps Hps). split; [reflexivity |].
  rewrite <- last_None. by destruct (list.last _).
Qed.

(** X6: in every state a store can reach, [totalSize], the unmatched
    companion files and [hasMovFile] are those computed from the current
    [files], and the entries have the indexes, names and sizes of the
    entries derived from the current [files], in the same order: no event,
    snapshot or operation lets them drift apart. *)
Theorem entries_and_totals_follow_the_files
    (initialFiles : list File) (availableTags_ : list string)
    (sequence : nat) (actions : list Action) :
  let s :=
    store (run actions
             (createPhotoUploadStore initialFiles availableTags_ sequence)) in
  totalSize s = calculateTotalSize (files s) /\
  (unmatchedMovFiles s, hasMovFile s) = collectUnmatchedMovFiles (files s) /\
  map entry_file (uploadEntries s)
  = map entry_file (createFileEntries (files s)) /\
  length (uploadEntries s) = length (createFileEntries (files s)).
Proof.
  cbv zeta.
  assert (Hderived : derived_from_files
    (store (run actions
              (createPhotoUploadStore initialFiles availableTags_ sequence)))).
  { apply (run_invariant (fun w => derived_from_files (store w)));
      [apply perform_derived_from_files |].
    unfold createPhotoUploadStore, derived_from_files.
    destruct (collectUnmatchedMovFiles initialFiles) eqn:Hc. cbn.
    by rewrite Hc. }
  destruct Hderived as (Htotal & Hpartition & Hentries).
  repeat split; try done.
  by rewrite <- (length_map entry_file), Hentries, length_map.
Qed.

(** X7: in every state a store can reach, the ids of the entries of
    [processingLogs] are pairwise distinct: they are [log-n] for strictly
    increasing numbers [n] below the module-level counter. *)
Theorem log_ids_are_distinct
    (initialFiles : list File) (availableTags_ : list string)
    (sequence : nat) (actions : list Action) :
  let w :=
    run actions
      (createPhotoUploadStore initialFiles availableTags_ sequence) in
  NoDup (map id (processingLogs (store w))) /\ log_ids_ascend w.
Proof.
  cbv zeta.
  assert (Hascend : log_ids_ascend
    (run actions
       (createPhotoUploadStore initialFiles availableTags_ sequence))).
  { apply (run_invariant log_ids_ascend); [apply perform_log_ids_ascend |].
    unfold createPhotoUploadStore, log_ids_ascend.
    destruct (collectUnmatchedMovFiles initialFiles).
    exists []. repeat split; constructor. }
  split; [| exact Hascend].
  destruct Hascend as (ns & -> & Hsorted & _).
  apply (NoDup_fmap_2_strong log_id).
  - intros n m _ _. apply log_id_inj.
  - clear -Hsorted. induction Hsorted as [| n ns _ IH Hall];
      constructor; [| exact IH].
    intros Hin. apply (proj1 (Forall_forall _ _) Hall) in Hin. lia.
Qed.
End Invariants.

Lemma latestLog_mirrors_the_last_log_witness :
  exists ps,
    processingState
      (store (@run Sample.utils Sample.dateApi
                [ DoBeginUpload;
                  OnServerEvent 5 (EvStart "sync" {[ "metadata" := 3 ]} None);
                  OnServerEvent 6 (EvLog "scanning" "info" "not a date") ]
                (@createPhotoUploadStore Sample.utils Sample.three_files
                   [] 0))) = Some ps /\
    latestLog ps
    = Some {| latest_message := "scanning"; latest_level := "info";
              latest_timestamp := 6 |}.
Proof.
  eexists. split; [reflexivity |].
  apply (@latestLog_mirrors_the_last_log Sample.utils Sample.dateApi
           Sample.three_files [] 0%nat
           [ DoBeginUpload;
             OnServerEvent 5 (EvStart "sync" {[ "metadata" := 3 ]} None);
             OnServerEvent 6 (EvLog "scanning" "info" "not a date") ]
           _ eq_refl).
Defined.

(** ** Snapshots and events on the entries *)

(** X8: applying an upload-progress snapshot twice is the same as applying
    it once: snapshots carry absolute values, a repeated delivery changes
    nothing. *)
Theorem upload_progress_is_idempotent
    {utils : Utils} (w : World) (snapshot : PhotoUploadProgressSnapshot) :
  exec (handleUploadProgress snapshot)
    (exec (handleUploadProgress snapshot) w)
  = exec (handleUploadProgress snapshot) w.
Proof.
  unfold_store. cbn.
  set (progressMap := new_Map _).
  set (step := fun entry : FileProgressEntry =>
                 match progressMap !! index entry with
                 | Some current => _
                 | None => entry
                 end).
  assert (Hidem : map step (map step (uploadEntries (store w)))
                  = map step (uploadEntries (store w))).
  { rewrite map_map. apply map_ext. intros entry. subst step. cbn.
    destruct (progressMap !! index entry) as [current |] eqn:Hget; cbn;
      rewrite Hget; [| reflexivity].
    f_equal. destruct (status entry); reflexivity. }
  by rewrite Hidem.
Qed.

(** X9: no server event and no progress snapshot ever moves an entry
    backwards: the entries stay in place with their index, name and size,
    the rank of each status along [pending -> uploading -> processing ->
    {done, error}] never decreases, and an entry that is [done] or [error]
    keeps that status. *)
Theorem feeds_never_move_an_entry_backwards
    {utils : Utils} {dateApi : DateApi} (w : World) (a : Action) :
  is_feed a = true ->
  let entries := uploadEntries (store w) in
  let entries' := uploadEntries (store (exec (perform a) w)) in
  length entries' = length entries /\
  forall (i : nat) (entry : FileProgressEntry),
    entries !! i = Some entry ->
    exists entry',
      entries' !! i = Some entry' /\
      entry_file entry' = entry_file entry /\
      (FileStatusOrder.rank (status entry)
       <= FileStatusOrder.rank (status entry'))%nat /\
      (status entry = FileStatus.done \/ status entry = FileStatus.error ->
       status entry' = status entry).
Proof.
  intros Hfeed. cbv zeta.
  assert (Hmap : forall step : FileProgressEntry -> FileProgressEntry,
    (forall entry,
       entry_file (step entry) = entry_file entry /\
       (FileStatusOrder.rank (status entry)
        <= FileStatusOrder.rank (status (step entry)))%nat /\
       (status entry = FileStatus.done \/ status entry = FileStatus.error ->
        status (step entry) = status entry)) ->
    length (map step (uploadEntries (store w)))
    = length (uploadEntries (store w)) /\
    forall i entry,
      uploadEntries (store w) !! i = Some entry ->
      exists entry',
        map step (uploadEntries (store w)) !! i = Some entry' /\
        entry_file entry' = entry_file entry /\
        (FileStatusOrder.rank (status entry)
         <= FileStatusOrder.rank (status entry'))%nat /\
        (status entry = FileStatus.done \/ status entry = FileStatus.error ->
         status entry' = status entry)).
  { intros step Hstep. split; [apply length_map |].
    intros i entry Hi. exists (step entry).
    split; [| apply Hstep].
    change (map step ?l) with (step <$> l).
    by rewrite list_lookup_fmap, Hi. }
  assert (Hsame : forall entry : FileProgressEntry,
    entry_file entry = entry_file entry /\
    (FileStatusOrder.rank (status entry)
     <= FileStatusOrder.rank (status entry))%nat /\
    (status entry = FileStatus.done \/ status entry = FileStatus.error ->
     status entry = status entry)) by done.
  destruct a as [| | | | | | | snapshot | now event |]; try discriminate;
    unfold perform; unfold_store; cbn.
  - apply Hmap. intros entry.
    destruct (_ !! index entry); [| apply Hsame].
    destruct entry as [? ? ? [] ? ?]; vm_compute;
      (split; [reflexivity |]); (split; [lia |]); intros [? | ?]; done.
  - destruct event; cbn;
      try (destruct (processingState (store w)); cbn);
      first
        [ by (split; [reflexivity |]; intros i entry Hi; exists entry)
        | apply Hmap; intros entry;
          destruct entry as [? ? ? [] ? ?]; vm_compute;
          (split; [reflexivity |]); (split; [lia |]); intros [? | ?]; done ].
Qed.

Lemma feeds_never_move_an_entry_backwards_witness :
  exists entry',
    uploadEntries
      (store (exec (@perform Sample.utils Sample.dateApi
                      (OnServerEvent 12
                         (EvStart "sync" {[ "metadata" := 3 ]} None)))
                   processing_failed)) !! 0%nat = Some entry' /\
    status entry' = FileStatus.error.
Proof.
  destruct (@feeds_never_move_an_entry_backwards Sample.utils Sample.dateApi
              processing_failed
              (OnServerEvent 12 (EvStart "sync" {[ "metadata" := 3 ]} None))
              eq_refl) as [_ Hentries].
  destruct (Hentries 0%nat
              {| index := 0; name := "a.jpg"; size := 10;
                 status := FileStatus.error; progress := 0%Qc;
                 uploadedBytes := 0 |} eq_refl)
    as (entry' & Hlook & _ & _ & Hkept).
  exists entry'. split; [exact Hlook |]. apply Hkept. by right.
Defined.

(** ** Editing the selection *)

Lemma filter_index_ext {A} (f g : nat -> bool) (k : nat) (l : list A) :
  (forall j, f j = g j) -> filter_index f k l = filter_index g k l.
Proof.
  intros Hfg. revert k. induction l as [| x l IH]; intros k; cbn;
    [reflexivity |].
  rewrite Hfg, !IH. reflexivity.
Qed.

Lemma filter_index_all {A} (keep : nat -> bool) (k : nat) (l : list A) :
  (forall j, (k <= j)%nat -> keep j = true) -> filter_index keep k l = l.
Proof.
  revert k. induction l as [| x l IH]; intros k Hkeep; cbn; [reflexivity |].
  rewrite Hkeep by lia. f_equal. apply IH. intros j Hj. apply Hkeep. lia.
Qed.

(** Filtering out one index is deleting at that index. *)
Lemma filter_index_delete {A} (l : list A) (i k : nat) :
  filter_index (fun j => negb (j =? k + i)%nat) k l = delete i l.
Proof.
  revert i k. induction l as [| x l IH]; intros i k; [by destruct i |].
  cbn. destruct i as [| i]; cbn.
  - rewrite Nat.add_0_r, Nat.eqb_refl. cbn.
    apply filter_index_all. intros j Hj.
    apply negb_true_iff, Nat.eqb_neq. lia.
  - replace (k =? k + S i)%nat with false
      by (symmetry; apply Nat.eqb_neq; lia).
    cbn. f_equal. etrans; [| apply (IH i (S k))].
    apply filter_index_ext. intros j. do 2 f_equal. lia.
Qed.

Lemma delete_out_of_range {A} (l : list A) (i : nat) :
  (length l <= i)%nat -> delete i l = l.
Proof.
  intros Hi. rewrite delete_take_drop, take_ge, drop_ge by lia.
  apply app_nil_r.
Qed.

(** X10: [removeEntry] looks only at the phase and at the entry's index.
    Outside phase [review], or with an index that is not the position of a
    file, it changes nothing at all.  In phase [review] with the index of a
    file, exactly that file is removed and the total size, the companion
    partition, the entries and the aggregate byte count are all derived
    anew from the remaining files; the tags, the errors, the processing
    state and the log are kept. *)
Theorem removeEntry_removes_the_file_at_the_index
    {utils : Utils} (w : World) (entry : FileProgressEntry) :
  (phase (store w) <> WorkflowPhase.review
   \/ (length (files (store w)) <= index entry)%nat ->
   exec (removeEntry entry) w = w) /\
  (phase (store w) = WorkflowPhase.review ->
   (index entry < length (files (store w)))%nat ->
   let nextFiles := delete (index entry) (files (store w)) in
   S (length nextFiles) = length (files (store w)) /\
   exec (removeEntry entry) w
   = with_store
       {| files := nextFiles;
          totalSize := calculateTotalSize nextFiles;
          st_uploadedBytes :=
            calculateUploadedBytes (createFileEntries nextFiles);
          availableTags := availableTags (store w);
          selectedTags := selectedTags (store w);
          unmatchedMovFiles := (collectUnmatchedMovFiles nextFiles).1;
          hasMovFile := (collectUnmatchedMovFiles nextFiles).2;
          phase := WorkflowPhase.review;
          uploadEntries := createFileEntries nextFiles;
          uploadError := uploadError (store w);
          processingError := processingError (store w);
          processingState := processingState (store w);
          processingLogs := processingLogs (store w) |} w).
Proof.
  pose proof (filter_index_delete (files (store w)) (index entry) 0)
    as Hdelete.
  cbn in Hdelete.
  split.
  - intros Hguard. unfold_store. cbn.
    destruct Hguard as [Hphase | Hrange].
    + rewrite bool_decide_eq_false_2 by done. cbn.
      by destruct w as [[] ? ? ? ? ? ?].
    + destruct (bool_decide _); cbn; [| by destruct w as [[] ? ? ? ? ? ?]].
      rewrite Hdelete, delete_out_of_range by done.
      rewrite Nat.eqb_refl. cbn. by destruct w as [[] ? ? ? ? ? ?].
  - intros Hphase Hrange. cbv zeta.
    assert (Hlen : S (length (delete (index entry) (files (store w))))
                   = length (files (store w))).
    { rewrite length_delete; [lia |]. by apply lookup_lt_is_Some_2. }
    split; [exact Hlen |].
    unfold_store. cbn. rewrite bool_decide_eq_true_2 by done. cbn.
    rewrite Hdelete.
    replace (length (delete (index entry) (files (store w)))
             =? length (files (store w)))%nat with false
      by (symmetry; apply Nat.eqb_neq; lia).
    cbn. destruct (collectUnmatchedMovFiles _). cbn. by rewrite Hphase.
Qed.

Lemma removeEntry_removes_the_file_at_the_index_witness :
  files (store (exec (@removeEntry Sample.utils
                        {| index := 1; name := "stale"; size := 0;
                           status := FileStatus.done; progress := 1%Qc;
                           uploadedBytes := 0 |}) Sample.fresh))
  = [ {| file_name := "a.jpg"; file_size := 10 |};
      {| file_name := "c.jpg"; file_size := 30 |} ] /\
  exec (@removeEntry Sample.utils
          {| index := 1; name := "b.jpg"; size := 20;
             status := FileStatus.uploading; progress := 0%Qc;
             uploadedBytes := 0 |}) uploading_now = uploading_now.
Proof.
  split.
  - destruct (@removeEntry_removes_the_file_at_the_index Sample.utils
                Sample.fresh
                {| index := 1; name := "stale"; size := 0;
                   status := FileStatus.done; progress := 1%Qc;
                   uploadedBytes := 0 |}) as [_ Hremove].
    destruct (Hremove eq_refl) as [_ ->]; [cbn; lia | reflexivity].
  - destruct (@removeEntry_removes_the_file_at_the_index Sample.utils
                uploading_now
                {| index := 1; name := "b.jpg"; size := 20;
                   status := FileStatus.uploading; progress := 0%Qc;
                   uploadedBytes := 0 |}) as [Hnoop _].
    apply Hnoop. left. discriminate.
Defined.

Section Selection.
Context {utils : Utils} {dateApi : DateApi}.

Lemma perform_keeps_selection (a : Action) (w : World) :
  keeps_selection a = true ->
  selection (store (exec (perform a) w)) = selection (store w).
Proof.
  intros Hkeeps. unfold selection.
  destruct a as [entry | | | | | tags | | snapshot | now event | outcome];
    try discriminate; unfold perform; unfold_store; cbn.
  - destruct (_ || _ || _); cbn; [reflexivity |].
    by destruct (length _ =? 0)%nat.
  - destruct (bool_decide _); cbn; [reflexivity |].
    by destruct (bool_decide _).
  - reflexivity.
  - reflexivity.
  - reflexivity.
  - reflexivity.
  - destruct event; cbn; try reflexivity;
      by destruct (processingState (store w)).
  - destruct outcome as [| e]; cbn; [reflexivity |].
    by destruct (String.eqb (error_name e) "AbortError").
Qed.

Lemma run_keeps_selection (actions : list Action) (w : World) :
  forallb keeps_selection actions = true ->
  selection (store (run actions w)) = selection (store w).
Proof.
  revert w. induction actions as [| a actions IH]; intros w Hkeep;
    [reflexivity |].
  cbn in Hkeep. apply andb_true_iff in Hkeep as [Ha Hrest].
  rewrite run_cons, (IH _ Hrest). by apply perform_keeps_selection.
Qed.

(** X11: only [removeEntry] and [setSelectedTags] edit the selection: any
    sequence of other operations, events, snapshots and transport outcomes
    leaves [files], [availableTags], [selectedTags], [totalSize],
    [unmatchedMovFiles] and [hasMovFile] as they were. *)
Theorem only_two_operations_edit_the_selection
    (actions : list Action) (w : World) :
  forallb keeps_selection actions = true ->
  let s := store w in
  let s' := store (run actions w) in
  files s' = files s /\
  availableTags s' = availableTags s /\
  selectedTags s' = selectedTags s /\
  totalSize s' = totalSize s /\
  unmatchedMovFiles s' = unmatchedMovFiles s /\
  hasMovFile s' = hasMovFile s.
Proof.
  intros Hkeep. cbv zeta.
  pose proof (run_keeps_selection actions w Hkeep) as Hsel.
  unfold selection in Hsel. injection Hsel as -> -> -> -> -> ->. done.
Qed.

(** X12: [reset] is idempotent, and it forgets the session: after any
    sequence of actions that do not edit the selection, [reset] leaves the
    state it would have left at once, in phase [review] with no error, no
    processing state, an empty log and the entries derived from the
    files. *)
Theorem reset_forgets_the_session (actions : list Action) (w : World) :
  forallb keeps_selection actions = true ->
  exec reset (exec reset w) = exec reset w /\
  store (exec reset (run actions w)) = store (exec reset w) /\
  store (exec reset w)
  = {| files := files (store w);
       totalSize := totalSize (store w);
       st_uploadedBytes :=
         calculateUploadedBytes (createFileEntries (files (store w)));
       availableTags := availableTags (store w);
       selectedTags := selectedTags (store w);
       unmatchedMovFiles := unmatchedMovFiles (store w);
       hasMovFile := hasMovFile (store w);
       phase := WorkflowPhase.review;
       uploadEntries := createFileEntries (files (store w));
       uploadError := None;
       processingError := None;
       processingState := None;
       processingLogs := [] |}.
Proof.
  intros Hkeep.
  pose proof (run_keeps_selection actions w Hkeep) as Hsel.
  unfold selection in Hsel.
  injection Hsel as Hfiles Havailable Htags Htotal Hunmatched Hmov.
  split; [reflexivity |]. split; [| reflexivity].
  unfold_store. cbn.
  by rewrite Hfiles, Havailable, Htags, Htotal, Hunmatched, Hmov.
Qed.
End Selection.

Lemma only_two_operations_edit_the_selection_witness :
  files (store all_done) = Sample.three_files /\
  totalSize (store all_done) = 60.
Proof.
  destruct (@only_two_operations_edit_the_selection Sample.utils
              Sample.dateApi
              [ DoBeginUpload;
                OnServerEvent 5 (EvStart "sync" {[ "metadata" := 3 ]} None);
                OnServerEvent 9 (EvComplete "synced") ]
              Sample.fresh eq_refl) as (Hfiles & _ & _ & Htotal & _).
  split; [exact Hfiles | exact Htotal].
Defined.

Lemma reset_forgets_the_session_witness :
  store (exec (@reset Sample.utils) all_done)
  = store (exec (@reset Sample.utils) Sample.fresh).
Proof.
  exact (proj1 (proj2
    (@reset_forgets_the_session Sample.utils Sample.dateApi
       [ DoBeginUpload;
         OnServerEvent 5 (EvStart "sync" {[ "metadata" := 3 ]} None);
         OnServerEvent 9 (EvComplete "synced") ]
       Sample.fresh eq_refl))).
Defined.

(** ** The transport: starting, settling, cancelling *)

(** X13: when the promise of the transport settles, the abort controller
    is dropped in every case.  A resolution leaves the state as it is.  An
    abort rejection yields phase [review] with the entries derived anew
    from the files, whatever the phase was, and keeps both error messages,
    the processing state and the log.  Any other rejection yields phase
    [error] with [uploadError] set to the message derived from the failure;
    the entries in status [uploading] move to [error], all others are
    kept. *)
Theorem upload_settles
    {utils : Utils} (w : World) (outcome : UploadOutcome) :
  let w' := exec (beginUpload_settled outcome) w in
  uploadAbortController w' = None /\
  aborted w' = aborted w /\
  selection (store w') = selection (store w) /\
  processingError (store w') = processingError (store w) /\
  processingState (store w') = processingState (store w) /\
  processingLogs (store w') = processingLogs (store w) /\
  match outcome with
  | Resolved => store w' = store w
  | Rejected e =>
      if String.eqb (error_name e) "AbortError" then
        phase (store w') = WorkflowPhase.review /\
        uploadEntries (store w') = createFileEntries (files (store w)) /\
        uploadError (store w') = uploadError (store w)
      else
        phase (store w') = WorkflowPhase.error /\
        uploadEntries (store w')
        = map (retag FileStatus.uploading FileStatus.error)
            (uploadEntries (store w)) /\
        uploadError (store w')
        = Some (getErrorMessage e "上传失败，请稍后再试。")
  end.
Proof.
  cbv zeta. unfold_store. unfold selection.
  destruct outcome as [| e]; cbn; [done |].
  destruct (String.eqb (error_name e) "AbortError"); cbn;
    repeat split. apply map_retag.
Qed.

(** X14: [abortCurrent] in phase [uploading] aborts and drops the
    controller and yields phase [review] with the entries derived anew
    from the files; the abort rejection with which the transport then
    settles changes nothing more in the state.  After [abortCurrent] in
    phase [processing], which yields phase [error], that same rejection
    moves the phase on to [review] and derives the entries anew, while
    [processingError] keeps the termination message. *)
Theorem abortCurrent_and_the_rejection_that_follows
    {utils : Utils} (w : World) (e : JsError) :
  error_name e = "AbortError" ->
  (phase (store w) = WorkflowPhase.uploading ->
   let w1 := exec abortCurrent w in
   phase (store w1) = WorkflowPhase.review /\
   uploadEntries (store w1) = createFileEntries (files (store w)) /\
   st_uploadedBytes (store w1)
   = calculateUploadedBytes (createFileEntries (files (store w))) /\
   uploadAbortController w1 = None /\
   (forall c, uploadAbortController w = Some c -> c ∈ aborted w1) /\
   store (exec (beginUpload_settled (Rejected e)) w1) = store w1) /\
  (phase (store w) = WorkflowPhase.processing ->
   let w2 := exec (beginUpload_settled (Rejected e)) (exec abortCurrent w) in
   phase (store w2) = WorkflowPhase.review /\
   processingError (store w2) = Some "服务器处理已终止" /\
   uploadEntries (store w2) = createFileEntries (files (store w)) /\
   processingState (store w2) = processingState (store w)).
Proof.
  intros Hname. split; intros Hphase; cbv zeta; unfold_store;
    rewrite Hname, Hphase; decide_phases; cbn.
  - repeat split. intros c ->. apply list_elem_of_here.
  - by repeat split.
Qed.

Lemma abortCurrent_and_the_rejection_that_follows_witness :
  phase (store (exec (@abortCurrent Sample.utils) started_metadata_3))
  = WorkflowPhase.error /\
  phase
    (store (exec (@beginUpload_settled Sample.utils (Rejected abort_error))
              (exec (@abortCurrent Sample.utils) started_metadata_3)))
  = WorkflowPhase.review.
Proof.
  split; [reflexivity |].
  destruct (@abortCurrent_and_the_rejection_that_follows Sample.utils
              started_metadata_3 abort_error eq_refl) as [_ Hprocessing].
  exact (proj1 (Hprocessing eq_refl)).
Defined.

Section Transport.
Context {utils : Utils} {dateApi : DateApi}.

Lemma perform_feed_outside (a : Action) (w : World) :
  is_feed a = true -> outside (exec (perform a) w) = outside w.
Proof.
  intros Hfeed. unfold outside.
  destruct a as [| | | | | | | snapshot | now event |]; try discriminate;
    unfold perform; unfold_store; cbn; [reflexivity |].
  destruct event; cbn; try reflexivity;
    by destruct (processingState (store w)).
Qed.

Lemma run_feeds_outside (feeds : list Action) (w : World) :
  forallb is_feed feeds = true -> outside (run feeds w) = outside w.
Proof.
  revert w. induction feeds as [| a feeds IH]; intros w Hfeeds;
    [reflexivity |].
  cbn in Hfeeds. apply andb_true_iff in Hfeeds as [Ha Hrest].
  rewrite run_cons, (IH _ Hrest). by apply perform_feed_outside.
Qed.

(** X15: when [beginUpload] is not blocked it calls the transport exactly
    once, with the current files, the directory derived from the current
    tags, the fixed timeout and the signal of a new controller that the
    store keeps; the phase becomes [uploading] and every entry gets status
    [uploading].  Whatever snapshots and server events follow, they never
    call the transport or touch the controller, and [reset], [cleanup] and
    [closeModal] then abort that very signal, as [abortCurrent] does while
    the phase is [uploading] or [processing]. *)
Theorem cancellation_reaches_the_transport (w : World) (feeds : list Action) :
  unmatchedMovFiles (store w) = [] ->
  phase (store w) <> WorkflowPhase.uploading ->
  phase (store w) <> WorkflowPhase.processing ->
  files (store w) <> [] ->
  forallb is_feed feeds = true ->
  let w1 := exec beginUpload w in
  let w2 := run feeds w1 in
  phase (store w1) = WorkflowPhase.uploading /\
  uploadEntries (store w1)
  = map (entry_with_status FileStatus.uploading) (uploadEntries (store w)) /\
  exists request : UploadRequest,
    uploadCalls w2 = request :: uploadCalls w /\
    req_files request = createFileList (files (store w)) /\
    req_directory request = deriveDirectoryFromTags (selectedTags (store w)) /\
    req_timeoutMs request = 120000 /\
    uploadAbortController w2 = Some (req_signal request) /\
    req_signal request ∈ aborted (exec reset w2) /\
    req_signal request ∈ aborted (exec cleanup w2) /\
    req_signal request ∈ aborted (exec closeModal w2) /\
    (phase (store w2) = WorkflowPhase.uploading
     \/ phase (store w2) = WorkflowPhase.processing ->
     req_signal request ∈ aborted (exec abortCurrent w2)).
Proof.
  intros Hunmatched Huploading Hprocessing Hfiles Hfeeds. cbv zeta.
  pose proof (run_feeds_outside feeds (exec beginUpload w) Hfeeds) as Hout.
  revert Hout. generalize (run feeds (exec beginUpload w)) as w2.
  unfold outside. unfold_store. rewrite Hunmatched. decide_phases. cbn.
  destruct (files (store w)) as [| file rest] eqn:Hfs; [done |]. cbn.
  intros w2 [= Hcontroller Hcreated Haborted Hcalls Hclose].
  split; [reflexivity |]. split; [reflexivity |].
  eexists. split; [exact Hcalls |]. cbn.
  rewrite Hcontroller.
  repeat split; try apply list_elem_of_here; try (by rewrite Hfs).
  intros [Hphase | Hphase]; rewrite Hphase; decide_phases; cbn;
    rewrite Hcontroller; apply list_elem_of_here.
Qed.

(** X16: [cleanup] and [closeModal] never change the state object;
    [cleanup] aborts and drops the controller and doing it twice is the
    same as doing it once; [closeModal] is [cleanup] followed by exactly
    one call of [onClose], and never calls the transport. *)
Theorem cleanup_is_idempotent_and_leaves_the_state (w : World) :
  store (exec cleanup w) = store w /\
  uploadAbortController (exec cleanup w) = None /\
  (forall c, uploadAbortController w = Some c -> c ∈ aborted (exec cleanup w)) /\
  (uploadAbortController w = None -> exec cleanup w = w) /\
  exec cleanup (exec cleanup w) = exec cleanup w /\
  store (exec closeModal w) = store w /\
  closeCalls (exec closeModal w) = S (closeCalls w) /\
  uploadCalls (exec closeModal w) = uploadCalls w /\
  aborted (exec closeModal w) = aborted (exec cleanup w).
Proof.
  unfold_store. cbn. repeat split.
  - intros c ->. apply list_elem_of_here.
  - intros Hnone. destruct w; cbn in *. by subst.
Qed.
End Transport.

Lemma cancellation_reaches_the_transport_witness :
  exists request : UploadRequest,
    uploadCalls started_metadata_3 = [request] /\
    req_files request = Sample.three_files /\
    req_signal request ∈ aborted (exec (@reset Sample.utils) started_metadata_3).
Proof.
  destruct (@cancellation_reaches_the_transport Sample.utils Sample.dateApi
              Sample.fresh
              [OnServerEvent 5 (EvStart "sync" {[ "metadata" := 3 ]} None)])
    as (_ & _ & request & Hcalls & Hfiles & _ & _ & _ & Hreset & _);
    try done.
  exists request. split; [exact Hcalls |]. split; [exact Hfiles |].
  exact Hreset.
Defined.

Lemma cleanup_is_idempotent_and_leaves_the_state_witness :
  exec cleanup Sample.fresh = Sample.fresh /\
  0%nat ∈ aborted (exec cleanup uploading_now).
Proof.
  destruct (cleanup_is_idempotent_and_leaves_the_state Sample.fresh)
    as (_ & _ & _ & Hnone & _).
  destruct (cleanup_is_idempotent_and_leaves_the_state uploading_now)
    as (_ & _ & Haborts & _).
  split; [exact (Hnone eq_refl) | exact (Haborts 0%nat eq_refl)].
Defined.

Lemma phase_tells_processingState_witness :
  exists ps, processingState (store all_done) = Some ps /\ completed ps = true.
Proof.
  destruct (@phase_tells_processingState Sample.utils Sample.dateApi
              Sample.three_files [] 0%nat
              [ DoBeginUpload;
                OnServerEvent 5 (EvStart "sync" {[ "metadata" := 3 ]} None);
                OnServerEvent 9 (EvComplete "synced") ])
    as (_ & _ & Hcompleted).
  exact (Hcompleted eq_refl).
Defined.

(** ** The [start] event *)

(** X17: a [start] event is acted on in every phase and whatever the state
    holds: the phase becomes [processing], [processingError] and the log
    are cleared, and [processingState] is made anew from the payload, not
    completed, without error or latest log, [dryRun] being false unless the
    payload's options say otherwise; the entries in status [uploading] move
    to [processing], all others are kept; [uploadError] and the log counter
    are not touched. *)
Theorem start_event_opens_processing
    {utils : Utils} {dateApi : DateApi} (w : World) (now : Z)
    (summary_ : string) (totals_ : gmap string Z)
    (options_ : option (option bool)) :
  let w' :=
    exec (handleProcessingEvent now (EvStart summary_ totals_ options_)) w in
  phase (store w') = WorkflowPhase.processing /\
  processingError (store w') = None /\
  processingLogs (store w') = [] /\
  uploadError (store w') = uploadError (store w) /\
  selection (store w') = selection (store w) /\
  processingLogSequence w' = processingLogSequence w /\
  outside w' = outside w /\
  uploadEntries (store w')
  = map (retag FileStatus.uploading FileStatus.processing)
      (uploadEntries (store w)) /\
  processingState (store w')
  = Some {| dryRun := match options_ with
                      | Some (Some flag) => flag
                      | _ => false
                      end;
            summary := summary_;
            totals := totals_;
            stages := createStageStateFromTotals totals_;
            completed := false;
            error := None;
            latestLog := None |}.
Proof.
  cbv zeta. unfold_store. cbn. repeat split.
  - apply map_retag.
  - by destruct options_ as [[|] |].
Qed.
